(** * Decline-curve analysis of well production data

    A shallow embedding of [Scripts/03_decline_curve_analysis.py]:
    the hyperbolic decline function, the reserve estimator
    [calculate_eur] and the steps of [analyze_production]
    (monthly aggregation, windowed fit, R², reserves, forecast).

    Numbers.  The script computes with Python numbers and with NumPy
    [float64] scalars and arrays.  Both are modelled by extended reals
    [f64]: exact real arithmetic (no rounding, signed zeros not
    distinguished) together with the IEEE special values [+inf], [-inf]
    and [nan], which the script does produce.  What separates the two
    worlds is kept: an operation between two Python numbers raises
    [ZeroDivisionError] on a zero divisor and [OverflowError] when a power
    leaves the range of the floats, while an operation with a NumPy
    operand returns [inf] or [nan] (with a warning) and goes on.  Sums,
    products and quotients of floats do not raise when they overflow, in
    either world: there a value too large for a float stays the real
    number it is, as a rounded value stays the exact one.  What is stated
    about [OverflowError] is therefore stated where the operands of the
    power are within the floats.

    Collaborators.  [scipy.optimize.curve_fit] is not part of the
    repository; it is a parameter of the development.  Database access,
    printing and plotting are not modelled. *)

From Stdlib Require Import String.
From Stdlib Require Import Reals Lra Lia ZArith List Bool Sorted.
Import ListNotations.

Local Open Scope R_scope.

(** ** Results of Python evaluations *)

(** A Python exception is identified by the name of its class. *)
Definition exn := string.

Definition ZeroDivisionError : exn := "ZeroDivisionError"%string.
Definition IndexError : exn := "IndexError"%string.
Definition ValueError : exn := "ValueError"%string.
Definition OverflowError : exn := "OverflowError"%string.

(** [NotReal]: the evaluation produced a Python [complex] (a negative
    base raised to a fractional power); the development follows the
    execution no further. *)
Inductive result (A : Type) : Type :=
| Ok (a : A)
| Raise (e : exn)
| NotReal.

Arguments Ok {A} a.
Arguments Raise {A} e.
Arguments NotReal {A}.

Definition bind {A B : Type} (c : result A) (k : A -> result B) : result B :=
  match c with
  | Ok a => k a
  | Raise e => Raise e
  | NotReal => NotReal
  end.

Notation "x <- c ;; k" := (bind c (fun x => k))
  (at level 61, c at next level, right associativity).

(** ** Extended reals *)

Inductive f64 : Type :=
| Fin (x : R)
| PInf
| NInf
| NaN.

Definition Rltb (x y : R) : bool := if Rlt_dec x y then true else false.
Definition Reqb (x y : R) : bool := if Req_dec_T x y then true else false.

Definition is_nan (a : f64) : bool :=
  match a with NaN => true | _ => false end.

Definition is_zero (a : f64) : bool :=
  match a with Fin x => Reqb x 0 | _ => false end.

(** The infinity that carries the sign of [x]; [nan] for [x = 0]. *)
Definition inf_of_sign (x : R) : f64 :=
  if Rltb 0 x then PInf else if Rltb x 0 then NInf else NaN.

Definition f_neg (a : f64) : f64 :=
  match a with
  | Fin x => Fin (- x)
  | PInf => NInf
  | NInf => PInf
  | NaN => NaN
  end.

Definition f_add (a b : f64) : f64 :=
  match a, b with
  | NaN, _ | _, NaN => NaN
  | Fin x, Fin y => Fin (x + y)
  | PInf, NInf | NInf, PInf => NaN
  | PInf, _ | _, PInf => PInf
  | NInf, _ | _, NInf => NInf
  end.

Definition f_sub (a b : f64) : f64 := f_add a (f_neg b).

Definition f_mul (a b : f64) : f64 :=
  match a, b with
  | NaN, _ | _, NaN => NaN
  | Fin x, Fin y => Fin (x * y)
  | Fin x, PInf | PInf, Fin x => inf_of_sign x
  | Fin x, NInf | NInf, Fin x => inf_of_sign (- x)
  | PInf, PInf | NInf, NInf => PInf
  | PInf, NInf | NInf, PInf => NInf
  end.

(** IEEE division: a finite number over zero is an infinity ([nan] for
    [0/0]); zero counts as [+0]. *)
Definition f_div (a b : f64) : f64 :=
  match a, b with
  | NaN, _ | _, NaN => NaN
  | Fin x, Fin y => if Reqb y 0 then inf_of_sign x else Fin (x / y)
  | Fin _, PInf | Fin _, NInf => Fin 0
  | PInf, Fin y => if Rltb y 0 then NInf else PInf
  | NInf, Fin y => if Rltb y 0 then PInf else NInf
  | _, _ => NaN
  end.

Definition is_int (c : R) : bool := Reqb c (IZR (Int_part c)).
Definition is_odd_int (c : R) : bool := is_int c && Z.odd (Int_part c).

(** IEEE [pow], as C's [pow] and NumPy's [power] on floats. *)
Definition f_pow (a b : f64) : f64 :=
  if is_zero b then Fin 1
  else match a, b with
  | Fin x, _ =>
      if Reqb x 1 then Fin 1
      else match b with
      | NaN => NaN
      | Fin c =>
          if Rltb 0 x then Fin (Rpower x c)
          else if Reqb x 0 then (if Rltb 0 c then Fin 0 else PInf)
          else if is_int c then Fin (powerRZ x (Int_part c))
          else NaN
      | PInf =>
          if Rltb (Rabs x) 1 then Fin 0
          else if Rltb 1 (Rabs x) then PInf else Fin 1
      | NInf =>
          if Rltb (Rabs x) 1 then PInf
          else if Rltb 1 (Rabs x) then Fin 0 else Fin 1
      end
  | NaN, _ => NaN
  | _, NaN => NaN
  | PInf, Fin c => if Rltb 0 c then PInf else Fin 0
  | PInf, PInf => PInf
  | PInf, NInf => Fin 0
  | NInf, Fin c =>
      if Rltb 0 c then (if is_odd_int c then NInf else PInf) else Fin 0
  | NInf, PInf => PInf
  | NInf, NInf => Fin 0
  end.

(** ** Python numbers, NumPy scalars and arrays *)

(** Operations between two Python numbers. *)
Definition py_div (a b : f64) : result f64 :=
  if is_zero b then Raise ZeroDivisionError else Ok (f_div a b).

(** The largest [float64], [sys.float_info.max]. *)
Definition float_max : R := (2 - / 2 ^ 52) * 2 ^ 1023.

(** Whether a number is beyond the floats. *)
Definition beyond_floats (a : f64) : bool :=
  match a with
  | Fin x => Rltb float_max (Rabs x)
  | _ => false
  end.

(** [float.__pow__]: C's [pow], except that zero to a negative power
    raises, a negative base to a fractional power is a [complex], and a
    power of finite numbers that overflows raises [OverflowError]. *)
Definition py_pow (a b : f64) : result f64 :=
  match a, b with
  | Fin x, Fin c =>
      if Reqb c 0 then Ok (Fin 1)
      else if Reqb x 0 then
        (if Rltb c 0 then Raise ZeroDivisionError else Ok (f_pow a b))
      else if Rltb x 0 && negb (is_int c) then NotReal
      else if beyond_floats (f_pow a b) then Raise OverflowError
      else Ok (f_pow a b)
  | _, _ => Ok (f_pow a b)
  end.

Inductive kind : Type := Py | Np.

(** A scalar: a Python number or a NumPy [float64]. *)
Definition scalar : Type := (kind * f64)%type.

(** A value of the script: a scalar or a one-dimensional NumPy array. *)
Inductive value : Type :=
| Scal (s : scalar)
| Arr (xs : list f64).

Coercion Scal : scalar >-> value.

Fixpoint map2 {A B C : Type} (f : A -> B -> C) (xs : list A) (ys : list B)
  : list C :=
  match xs, ys with
  | x :: xs', y :: ys' => f x y :: map2 f xs' ys'
  | _, _ => []
  end.

(** NumPy broadcasting of two one-dimensional arrays. *)
Definition broadcast (np : f64 -> f64 -> f64) (xs ys : list f64)
  : result (list f64) :=
  if (length xs =? length ys)%nat then Ok (map2 np xs ys)
  else if (length xs =? 1)%nat then Ok (map (np (hd NaN xs)) ys)
  else if (length ys =? 1)%nat then Ok (map (fun x => np x (hd NaN ys)) xs)
  else Raise ValueError.

(** Dispatch of a binary operator: Python semantics between two Python
    numbers, NumPy semantics as soon as one operand is NumPy's. *)
Definition scalar_op (py : f64 -> f64 -> result f64) (np : f64 -> f64 -> f64)
  (a b : scalar) : result scalar :=
  match fst a, fst b with
  | Py, Py => r <- py (snd a) (snd b) ;; Ok (Py, r)
  | _, _ => Ok (Np, np (snd a) (snd b))
  end.

Definition binop (py : f64 -> f64 -> result f64) (np : f64 -> f64 -> f64)
  (a b : value) : result value :=
  match a, b with
  | Scal x, Scal y => r <- scalar_op py np x y ;; Ok (Scal r)
  | Scal x, Arr ys => Ok (Arr (map (np (snd x)) ys))
  | Arr xs, Scal y => Ok (Arr (map (fun x => np x (snd y)) xs))
  | Arr xs, Arr ys => r <- broadcast np xs ys ;; Ok (Arr r)
  end.

Definition total (f : f64 -> f64 -> f64) (a b : f64) : result f64 :=
  Ok (f a b).

Definition s_add : scalar -> scalar -> result scalar :=
  scalar_op (total f_add) f_add.
Definition s_sub : scalar -> scalar -> result scalar :=
  scalar_op (total f_sub) f_sub.
Definition s_mul : scalar -> scalar -> result scalar :=
  scalar_op (total f_mul) f_mul.
Definition s_div : scalar -> scalar -> result scalar := scalar_op py_div f_div.
Definition s_pow : scalar -> scalar -> result scalar := scalar_op py_pow f_pow.

Definition v_add : value -> value -> result value := binop (total f_add) f_add.
Definition v_sub : value -> value -> result value := binop (total f_sub) f_sub.
Definition v_mul : value -> value -> result value := binop (total f_mul) f_mul.
Definition v_div : value -> value -> result value := binop py_div f_div.
Definition v_pow : value -> value -> result value := binop py_pow f_pow.

(** Python literals. *)
Definition lit (x : R) : scalar := (Py, Fin x).

(** ** NumPy and pandas functions used by the script *)

(** [np.sum].  In extended reals the order of summation is immaterial. *)
Definition np_sum (xs : list f64) : f64 := fold_left f_add xs (Fin 0).

(** [np.sum] of a value; the result is a NumPy scalar. *)
Definition np_sum_v (v : value) : scalar :=
  match v with
  | Scal s => (Np, snd s)
  | Arr xs => (Np, np_sum xs)
  end.

(** [np.mean]: the sum over the length, without rounding.  A float64
    mean is this number where the sum and the quotient are exact (twenty
    times 5.0) and can differ from it in the last place where they are
    not (twenty times 0.1). *)
Definition np_mean (xs : list f64) : scalar :=
  (Np, f_div (np_sum xs) (Fin (INR (length xs)))).

(** [Series.sum()] and the group-wise ['sum']: missing values ([nan])
    are skipped. *)
Definition pd_sum (xs : list f64) : f64 :=
  np_sum (filter (fun x => negb (is_nan x)) xs).

(** [np.arange(a, b)] for integers [a <= b]. *)
Definition np_arange (a b : nat) : list f64 :=
  map (fun i => Fin (INR i)) (seq a (b - a)).

(** [np.linspace(start, stop, num)] with its default [endpoint=True]:
    [arange(0, num) * step + start], the last point set to [stop]. *)
Definition np_linspace (start stop : f64) (num : nat) : list f64 :=
  let delta := f_sub stop start in
  match num with
  | O => []
  | S O => [f_add (f_mul (Fin 0) delta) start]
  | S div =>
      let step := f_div delta (Fin (INR div)) in
      map (fun i => f_add (f_mul (Fin (INR i)) step) start) (seq 0 div)
        ++ [stop]
  end.

(** [np.diff(x)] is [x[1:] - x[:-1]]. *)
Definition np_diff (xs : list f64) : list f64 :=
  map2 f_sub (tl xs) (removelast xs).

(** [np.trapz(y, x)], named [np.trapezoid] since NumPy 2.0:
    [(d * (y[1:] + y[:-1]) / 2.0).sum()] with [d = diff(x)]. *)
Definition np_trapz (y x : value) : result scalar :=
  match y, x with
  | Arr ys, Arr xs =>
      let d := np_diff xs in
      prod <- broadcast f_mul d (map2 f_add (tl ys) (removelast ys)) ;;
      Ok (Np, np_sum (map (fun p => f_div p (Fin 2)) prod))
  | _, _ => Raise IndexError
  end.

(** ** DECLINE CURVE FUNCTIONS *)

(** [hyperbolic_decline(t, qi, Di, b)]:
    [return qi / ((1 + b * Di * t) ** (1/b))]. *)
Definition hyperbolic_decline (t qi Di b : value) : result value :=
  bDi <- v_mul b Di ;;
  bDit <- v_mul bDi t ;;
  base <- v_add (lit 1) bDit ;;
  e <- v_div (lit 1) b ;;
  p <- v_pow base e ;;
  v_div qi p.

(** The same expression in NumPy arithmetic alone, where no operation
    raises: what [hyperbolic_decline] computes for each element of an
    array [t] when [b] is a NumPy scalar. *)
Definition rate_np (t qi Di b : f64) : f64 :=
  f_div qi (f_pow (f_add (Fin 1) (f_mul (f_mul b Di) t)) (f_div (Fin 1) b)).

(** The value of the expression on real numbers, for a positive base
    [1 + b*Di*t] and [b <> 0]. *)
Definition rate (t qi Di b : R) : R :=
  qi / Rpower (1 + b * Di * t) (1 / b).


(** [calculate_eur(qi, Di, b, economic_limit=10)]. *)
Definition calculate_eur (qi Di b economic_limit : scalar) : result scalar :=
  (* t_max = ((qi/economic_limit)**b - 1) / (b * Di) *)
  ratio <- s_div qi economic_limit ;;
  pw <- s_pow ratio b ;;
  num <- s_sub pw (lit 1) ;;
  den <- s_mul b Di ;;
  t_max <- s_div num den ;;
  let time_points := Arr (np_linspace (Fin 0) (snd t_max) 1000) in
  production_points <- hyperbolic_decline time_points qi Di b ;;
  np_trapz production_points time_points.

(** ** Tables *)

Record Date : Type := { year : Z; month : Z; day : Z }.

(** [production_date.dt.to_period('M')]: pandas numbers the months from
    January 1970. *)
Definition to_period_M (d : Date) : Z :=
  (12 * (year d - 1970) + (month d - 1))%Z.

(** [year_month.dt.to_timestamp()] is the first day of the month; the
    monthly tables keep such a timestamp as the number of its month, and
    this is its calendar reading. *)
Definition to_timestamp (p : Z) : Date :=
  {| year := 1970 + p / 12; month := p mod 12 + 1; day := 1 |}.

(** The rows of the query on table [production]. *)
Module Daily.
Record row : Type := {
  production_date : Date;
  oil_volume : f64;
  gas_volume : f64;
  water_volume : f64
}.
End Daily.

(** The rows of [monthly]. *)
Module Monthly.
Record row : Type := {
  year_month : Z;
  oil_volume : f64;
  gas_volume : f64;
  water_volume : f64;
  months_on_production : Z
}.
End Monthly.

(** The rows of [forecast_df]. *)
Module Forecast.
Record row : Type := {
  forecast_date : Z;
  months_on_production : Z;
  predicted_oil : f64
}.
End Forecast.

(** The row of [params_df], without its [analysis_date]. *)
Record DeclineParameters : Type := {
  well_id : string;
  qi : f64;
  di : f64;
  b_factor : f64;
  r_squared : f64;
  eur : f64;
  cumulative_production : f64;
  remaining_reserves : f64
}.

(** The three tables the analysis saves. *)
Record Tables : Type := {
  decline_parameters : DeclineParameters;
  production_forecast : list Forecast.row;
  monthly_production : list Monthly.row
}.

(** ** Step 3: monthly aggregation *)

Definition year_month_of (o : Daily.row) : Z :=
  to_period_M (Daily.production_date o).

(** [groupby] keeps one key per group, in increasing order. *)
Fixpoint insert_key (k : Z) (ks : list Z) : list Z :=
  match ks with
  | [] => [k]
  | k' :: ks' =>
      if (k <? k')%Z then k :: ks
      else if (k =? k')%Z then ks
      else k' :: insert_key k ks'
  end.

Definition group_keys (df : list Daily.row) : list Z :=
  fold_right (fun o ks => insert_key (year_month_of o) ks) [] df.

Definition group_rows (k : Z) (df : list Daily.row) : list Daily.row :=
  filter (fun o => (year_month_of o =? k)%Z) df.

(** [df.groupby('year_month').agg({... 'sum'}).reset_index()], then
    [monthly['months_on_production'] = range(len(monthly))]. *)
Definition aggregate (df : list Daily.row) : list Monthly.row :=
  let keys := group_keys df in
  map2 (fun i k =>
          let g := group_rows k df in
          {| Monthly.year_month := k;
             Monthly.oil_volume := pd_sum (map Daily.oil_volume g);
             Monthly.gas_volume := pd_sum (map Daily.gas_volume g);
             Monthly.water_volume := pd_sum (map Daily.water_volume g);
             Monthly.months_on_production := Z.of_nat i |})
       (seq 0 (length keys)) keys.

(** ** Step 4: the fitting window *)

(** [monthly[monthly['months_on_production'] >= 70]]. *)
Definition recent_data (monthly : list Monthly.row) : list Monthly.row :=
  filter (fun m => (70 <=? Monthly.months_on_production m)%Z) monthly.

(** [t = (recent_data['months_on_production'] - 70).values]. *)
Definition fit_times (recent : list Monthly.row) : list f64 :=
  map (fun m => Fin (IZR (Monthly.months_on_production m - 70))) recent.

(** [q = recent_data['oil_volume'].values]. *)
Definition fit_volumes (recent : list Monthly.row) : list f64 :=
  map Monthly.oil_volume recent.

(** [series.iloc[0]]. *)
Definition iloc0 (xs : list f64) : result f64 :=
  match xs with
  | [] => Raise IndexError
  | x :: _ => Ok x
  end.

(** ** Steps 4 to 6 on fitted parameters *)

(** The R² of lines 148-151. *)
Definition goodness_of_fit (t q : list f64) (qi_fit Di_fit b_fit : scalar)
  : result scalar :=
  q_pred <- hyperbolic_decline (Arr t) qi_fit Di_fit b_fit ;;
  res <- v_sub (Arr q) q_pred ;;
  res2 <- v_pow res (lit 2) ;;
  let ss_res := np_sum_v res2 in
  dev <- v_sub (Arr q) (np_mean q) ;;
  dev2 <- v_pow dev (lit 2) ;;
  let ss_tot := np_sum_v dev2 in
  ratio <- s_div ss_res ss_tot ;;
  s_sub (lit 1) ratio.

(** The future production of lines 164-166. *)
Definition future_reserves (qi_fit Di_fit b_fit : scalar) : result scalar :=
  let time_future := Arr (np_arange 20 210) in
  production_future <- hyperbolic_decline time_future qi_fit Di_fit b_fit ;;
  np_trapz production_future time_future.

(** [monthly['year_month'].max()]; [None] stands for [NaT]. *)
Definition series_max (xs : list Z) : option Z :=
  match xs with
  | [] => None
  | x :: xs' => Some (fold_left Z.max xs' x)
  end.

(** [pd.date_range(start, periods, freq='MS')] from a month start. *)
Definition date_range (start : Z) (periods : nat) : list Z :=
  map (fun i => (start + Z.of_nat i)%Z) (seq 0 periods).

(** [pd.DataFrame] of three columns, which must have one length. *)
Definition forecast_frame (dates mop : list Z) (q : value)
  : result (list Forecast.row) :=
  match q with
  | Arr qs =>
      if ((length dates =? length mop) && (length mop =? length qs))%nat
      then Ok (map2 (fun dm p =>
                       {| Forecast.forecast_date := fst dm;
                          Forecast.months_on_production := snd dm;
                          Forecast.predicted_oil := p |})
                    (combine dates mop) qs)
      else Raise ValueError
  | Scal s =>
      Ok (map (fun dm =>
                 {| Forecast.forecast_date := fst dm;
                    Forecast.months_on_production := snd dm;
                    Forecast.predicted_oil := snd s |})
              (combine dates mop))
  end.

(** The forecast of lines 184-199.  [forecast_months] is the variable
    set on line 182; [start] stands for the time, counted from the start
    of the fitting window, at which the forecast begins, which the script
    writes as the literal 20 ("20 months from fitting start"). *)
Definition forecast (start forecast_months : nat)
  (monthly : list Monthly.row) (qi_fit Di_fit b_fit : scalar)
  : result (list Forecast.row) :=
  let t_forecast := Arr (np_arange start (start + forecast_months)) in
  q_forecast <- hyperbolic_decline t_forecast qi_fit Di_fit b_fit ;;
  match series_max (map Monthly.year_month monthly) with
  | None => Raise ValueError
  | Some last_date =>
      let forecast_dates := date_range (last_date + 1) forecast_months in
      forecast_frame forecast_dates
        (map (fun i => Z.of_nat i) (seq 90 forecast_months)) q_forecast
  end.

(** ** MAIN ANALYSIS *)

Section Analysis.

(** [scipy.optimize.curve_fit(f, xdata, ydata, p0, bounds, maxfev)]:
    the fitted parameters (the covariance is not used), or the
    exception it raises. *)
Variable curve_fit :
  (value -> value -> value -> value -> result value) ->
  list f64 -> list f64 -> list f64 -> list f64 * list f64 -> Z ->
  result (f64 * f64 * f64).

(** The call of lines 131-145. *)
Definition fit (recent : list Monthly.row) : result (f64 * f64 * f64) :=
  let t := fit_times recent in
  let q := fit_volumes recent in
  qi_guess <- iloc0 (fit_volumes recent) ;;
  let Di_guess := Fin (1 / 10) in
  let b_guess := Fin 0 in
  curve_fit hyperbolic_decline t q [qi_guess; Di_guess; b_guess]
    ([Fin 0; Fin 0; Fin 0], [PInf; Fin 1; Fin 2]) 10000.

(** [analyze_production()], from the rows it loads to the tables it
    saves. *)
Definition analyze_production (df : list Daily.row) : result Tables :=
  let monthly := aggregate df in
  let recent := recent_data monthly in
  let t := fit_times recent in
  let q := fit_volumes recent in
  params <- fit recent ;;
  let '(qi_f, Di_f, b_f) := params in
  let qi_fit : scalar := (Np, qi_f) in
  let Di_fit : scalar := (Np, Di_f) in
  let b_fit : scalar := (Np, b_f) in
  r2 <- goodness_of_fit t q qi_fit Di_fit b_fit ;;
  fut <- future_reserves qi_fit Di_fit b_fit ;;
  let cumulative_to_date : scalar :=
    (Np, pd_sum (map Monthly.oil_volume monthly)) in
  eur_v <- s_add cumulative_to_date fut ;;
  let remaining := fut in
  let forecast_months := 120%nat in
  forecast_df <- forecast 20 forecast_months monthly qi_fit Di_fit b_fit ;;
  Ok {| decline_parameters :=
          {| well_id := "WELL_001";
             qi := qi_f;
             di := Di_f;
             b_factor := b_f;
             r_squared := snd r2;
             eur := snd eur_v;
             cumulative_production := snd cumulative_to_date;
             remaining_reserves := snd remaining |};
        production_forecast := forecast_df;
        monthly_production := monthly |}.

End Analysis.

(** ** Auxiliary notions *)

(** An infinity or [nan]. *)
Definition nonfinite (a : f64) : Prop :=
  match a with Fin _ => False | _ => True end.

(** The row [i] of a forecast after the month [last_date]. *)
Definition forecast_row (start : nat) (last_date : Z) (qi Di b : f64)
  (i : nat) : Forecast.row :=
  {| Forecast.forecast_date := last_date + 1 + Z.of_nat i;
     Forecast.months_on_production := Z.of_nat (i + 90);
     Forecast.predicted_oil := rate_np (Fin (INR (i + start))) qi Di b |}.


(** The number a cell adds to a sum that skips missing values. *)
Definition volume (a : f64) : R :=
  match a with
  | Fin x => x
  | _ => 0
  end.

(** A number or a missing value. *)
Definition not_infinite (a : f64) : Prop :=
  match a with
  | PInf | NInf => False
  | _ => True
  end.

(** The sum of a list of numbers. *)
Fixpoint Rsum (xs : list R) : R :=
  match xs with
  | [] => 0
  | x :: xs' => x + Rsum xs'
  end.

(** What the observations of the calendar month [k] add up to in the
    column [col]: every observation of [df] is counted, with its volume
    when its date falls in the month [k] and with 0 when it does not. *)
Definition month_total (col : Daily.row -> f64) (k : Z)
  (df : list Daily.row) : R :=
  Rsum (map (fun o =>
               if (to_period_M (Daily.production_date o) =? k)%Z
               then volume (col o) else 0)
            df).

(** The total sum of squares of line 150,
    [np.sum((q - np.mean(q)) ** 2)], on an array [q]. *)
Definition ss_tot (q : list f64) : f64 :=
  np_sum (map (fun x => f_pow x (Fin 2))
              (map (fun x => f_sub x (snd (np_mean q))) q)).

(** ** The contract of the optimizer *)

Definition Rleb (x y : R) : bool := if Rle_dec x y then true else false.

(** The order of floats; every comparison with [nan] is false. *)
Definition f_leb (a b : f64) : bool :=
  match a, b with
  | NaN, _ | _, NaN => false
  | NInf, _ | _, PInf => true
  | Fin x, Fin y => Rleb x y
  | _, _ => false
  end.

(** SciPy documents [bounds] as lower and upper bounds on the
    parameters: an optimizer honours them when the parameters it returns
    lie between the bounds it was given. *)
Definition honours_bounds
  (curve_fit :
     (value -> value -> value -> value -> result value) ->
     list f64 -> list f64 -> list f64 -> list f64 * list f64 -> Z ->
     result (f64 * f64 * f64)) : Prop :=
  forall f t q p0 lo1 lo2 lo3 hi1 hi2 hi3 maxfev x1 x2 x3,
    curve_fit f t q p0 ([lo1; lo2; lo3], [hi1; hi2; hi3]) maxfev
    = Ok (x1, x2, x3) ->
    f_leb lo1 x1 = true /\ f_leb x1 hi1 = true /\
    f_leb lo2 x2 = true /\ f_leb x2 hi2 = true /\
    f_leb lo3 x3 = true /\ f_leb x3 hi3 = true.

(** ** Sample data *)

(** An optimizer that answers with given parameters whenever they lie
    within the bounds, and fails to converge otherwise. *)
Definition answer (x1 x2 x3 : f64)
  (f : value -> value -> value -> value -> result value)
  (t q p0 : list f64) (bounds : list f64 * list f64) (maxfev : Z)
  : result (f64 * f64 * f64) :=
  match bounds with
  | ([lo1; lo2; lo3], [hi1; hi2; hi3]) =>
      if f_leb lo1 x1 && f_leb x1 hi1 && f_leb lo2 x2 && f_leb x2 hi2
         && f_leb lo3 x3 && f_leb x3 hi3
      then Ok (x1, x2, x3)
      else Raise "RuntimeError"%string
  | _ => Raise ValueError
  end.

(** One observation in each of [n] consecutive months from January 2008,
    every one with the oil volume [v]. *)
Definition one_per_month (n : nat) (v : f64) : list Daily.row :=
  map (fun i =>
         {| Daily.production_date :=
              {| year := 2008 + Z.of_nat i / 12;
                 month := Z.of_nat i mod 12 + 1;
                 day := 15 |};
            Daily.oil_volume := v;
            Daily.gas_volume := Fin 0;
            Daily.water_volume := Fin 0 |})
      (seq 0 n).

(** A sample run: 90 months at 5 barrels each, fitted by [qi = 5],
    [Di = 0], [b = 1]. *)
Definition sample_fit :=
  answer (Fin 5) (Fin 0) (Fin 1).

Definition sample_days : list Daily.row := one_per_month 90 (Fin 5).

(** * Properties *)

(** ** Deciding comparisons of reals *)

Lemma Rltb_true (x y : R) : x < y -> Rltb x y = true.
Proof. intros H. unfold Rltb. destruct (Rlt_dec x y); [reflexivity | lra]. Qed.

Lemma Rltb_false (x y : R) : y <= x -> Rltb x y = false.
Proof. intros H. unfold Rltb. destruct (Rlt_dec x y); [lra | reflexivity]. Qed.

Lemma Reqb_true (x y : R) : x = y -> Reqb x y = true.
Proof.
  intros H. unfold Reqb. destruct (Req_dec_T x y); [reflexivity | contradiction].
Qed.

Lemma Reqb_false (x y : R) : x <> y -> Reqb x y = false.
Proof.
  intros H. unfold Reqb. destruct (Req_dec_T x y); [contradiction | reflexivity].
Qed.

Lemma Reqb_refl (x : R) : Reqb x x = true.
Proof. now apply Reqb_true. Qed.

(** ** The decline function at [b = 0] *)

Lemma py_div_zero (a : f64) : py_div a (Fin 0) = Raise ZeroDivisionError.
Proof. unfold py_div. cbn. now rewrite Reqb_refl. Qed.

Lemma f_pow_one (b : f64) : f_pow (Fin 1) b = Fin 1.
Proof.
  unfold f_pow. destruct (is_zero b); [reflexivity |].
  now rewrite Reqb_refl.
Qed.

Lemma v_mul_scalars (a b : scalar) :
  exists s : scalar, v_mul a b = Ok (Scal s).
Proof. destruct a as [[] x], b as [[] y]; cbn; eauto. Qed.

Lemma v_mul_scalar_left (s : scalar) (v : value) :
  exists w, v_mul s v = Ok w.
Proof. destruct s as [[] x], v as [[[] y] | ys]; cbn; eauto. Qed.

Lemma v_add_scalar_left (s : scalar) (v : value) :
  exists w, v_add s v = Ok w.
Proof. destruct s as [[] x], v as [[[] y] | ys]; cbn; eauto. Qed.

Lemma v_div_lit_zero (a : R) :
  v_div (lit a) (lit 0) = Raise ZeroDivisionError.
Proof. cbn. now rewrite py_div_zero. Qed.

(** With a NumPy [b] and scalar arguments nothing raises. *)
Lemma hyperbolic_decline_np_scalar (kt kq kD : kind) (t qi Di b : f64) :
  hyperbolic_decline (Scal (kt, t)) (Scal (kq, qi)) (Scal (kD, Di))
                     (Scal (Np, b))
  = Ok (Scal (Np, rate_np t qi Di b)).
Proof. destruct kt, kq, kD; reflexivity. Qed.

Lemma rate_np_b0 (t qi Di : R) :
  rate_np (Fin t) (Fin qi) (Fin Di) (Fin 0) = Fin qi.
Proof.
  unfold rate_np. cbn [f_mul f_add f_div].
  rewrite Reqb_refl. unfold inf_of_sign. rewrite (Rltb_true 0 1) by lra.
  replace (1 + 0 * Di * t) with 1 by ring.
  rewrite f_pow_one. cbn [f_div]. rewrite (Reqb_false 1 0) by lra.
  f_equal. field.
Qed.

(** C1.  The decline function has no special case for [b = 0]: it
    always evaluates [1/b].  Called with the Python number [b = 0] it
    raises [ZeroDivisionError], whatever [t], [qi] and [Di] are; called
    with the NumPy scalar [b = 0] the division gives [inf], the power
    [1 ** inf] gives 1, and the function returns [qi] instead of
    [qi * exp(-Di*t)]. *)
Theorem hyperbolic_decline_b0 :
  (forall (t qi : value) (Di : scalar),
      hyperbolic_decline t qi Di (lit 0) = Raise ZeroDivisionError) /\
  (forall (kt kq kD : kind) (t qi Di : R),
      hyperbolic_decline (Scal (kt, Fin t)) (Scal (kq, Fin qi))
                         (Scal (kD, Fin Di)) (Scal (Np, Fin 0))
      = Ok (Scal (Np, Fin qi))) /\
  (forall k : kind,
      hyperbolic_decline (Scal (Np, Fin 1)) (Scal (Np, Fin 1000))
                         (Scal (Np, Fin (1 / 10))) (Scal (k, Fin 0))
      <> Ok (Scal (Np, Fin (1000 * exp (- (1 / 10) * 1))))).
Proof.
  assert (H0 : forall (t qi : value) (Di : scalar),
             hyperbolic_decline t qi Di (lit 0) = Raise ZeroDivisionError).
  2: assert (H1 : forall (kt kq kD : kind) (t qi Di : R),
      hyperbolic_decline (Scal (kt, Fin t)) (Scal (kq, Fin qi))
                         (Scal (kD, Fin Di)) (Scal (Np, Fin 0))
      = Ok (Scal (Np, Fin qi))).
  3: split; [exact H0 | split; [exact H1 |]].
  - intros t qi Di. unfold hyperbolic_decline.
    destruct (v_mul_scalars (lit 0) Di) as [s1 H1]. rewrite H1. cbn [bind].
    destruct (v_mul_scalar_left s1 t) as [w Hw]. rewrite Hw. cbn [bind].
    destruct (v_add_scalar_left (lit 1) w) as [w' Hw']. rewrite Hw'.
    cbn [bind]. now rewrite v_div_lit_zero.
  - intros kt kq kD t qi Di. rewrite hyperbolic_decline_np_scalar.
    now rewrite rate_np_b0.
  - assert (H : exp (- (1 / 10) * 1) < exp 0)
      by (apply exp_increasing; lra).
    rewrite exp_0 in H. intros [|].
    + change (Scal (Py, Fin 0)) with (Scal (lit 0)).
      now rewrite H0.
    + rewrite H1. intros Heq. injection Heq as Heq. lra.
Qed.

(** ** The decline function on its domain *)

Lemma py_div_fin (x y : R) : y <> 0 -> py_div (Fin x) (Fin y) = Ok (Fin (x / y)).
Proof.
  intros H. unfold py_div, is_zero, f_div. now rewrite !Reqb_false.
Qed.

Lemma f_div_fin (x y : R) : y <> 0 -> f_div (Fin x) (Fin y) = Fin (x / y).
Proof. intros H. unfold f_div. now rewrite Reqb_false. Qed.

Lemma f_pow_pos (x c : R) :
  0 < x -> c <> 0 -> f_pow (Fin x) (Fin c) = Fin (Rpower x c).
Proof.
  intros Hx Hc. unfold f_pow, is_zero. rewrite (Reqb_false c 0) by assumption.
  unfold Reqb. destruct (Req_dec_T x 1) as [-> | Hne].
  - unfold Rpower. now rewrite ln_1, Rmult_0_r, exp_0.
  - now rewrite Rltb_true.
Qed.

Lemma Rpower_pos (x c : R) : 0 < Rpower x c.
Proof. unfold Rpower. apply exp_pos. Qed.

Lemma py_pow_pos (x c : R) :
  0 < x -> c <> 0 ->
  py_pow (Fin x) (Fin c)
  = if Rltb float_max (Rpower x c) then Raise OverflowError
    else Ok (Fin (Rpower x c)).
Proof.
  intros Hx Hc. unfold py_pow.
  rewrite (Reqb_false c 0), (Reqb_false x 0), (Rltb_false x 0) by lra.
  cbn [andb]. rewrite f_pow_pos by assumption. cbn [beyond_floats].
  rewrite Rabs_pos_eq by apply Rlt_le, Rpower_pos. reflexivity.
Qed.

Lemma float_max_lt : float_max < 2 ^ 1024.
Proof.
  unfold float_max. change (2 ^ 1024) with (2 * 2 ^ 1023).
  assert (H52 : 0 < / 2 ^ 52) by (apply Rinv_0_lt_compat, pow_lt; lra).
  assert (H : 0 < 2 ^ 1023) by (apply pow_lt; lra).
  nra.
Qed.

Lemma float_max_ge : 2 ^ 1023 <= float_max.
Proof.
  unfold float_max.
  assert (H52 : / 2 ^ 52 <= 1).
  { rewrite <- Rinv_1. apply Rinv_le_contravar; [lra |].
    apply pow_R1_Rle. lra. }
  assert (H : 0 < 2 ^ 1023) by (apply pow_lt; lra).
  nra.
Qed.

Lemma float_max_ge_1 : 1 <= float_max.
Proof.
  apply Rle_trans with (2 ^ 1023); [| apply float_max_ge].
  apply pow_R1_Rle. lra.
Qed.












(** ** NumPy never raises *)

Lemma hyperbolic_decline_np_array (ts : list f64) (kq kD : kind)
  (qi Di b : f64) :
  hyperbolic_decline (Arr ts) (Scal (kq, qi)) (Scal (kD, Di)) (Scal (Np, b))
  = Ok (Arr (map (fun t => rate_np t qi Di b) ts)).
Proof.
  destruct kq, kD; unfold hyperbolic_decline; cbn; rewrite !map_map;
    reflexivity.
Qed.

(** An array element and a scalar call agree. *)
Lemma rate_np_scalar_call (t qi Di b : f64) :
  hyperbolic_decline (Scal (Np, t)) (Scal (Np, qi)) (Scal (Np, Di))
                     (Scal (Np, b))
  = Ok (Scal (Np, rate_np t qi Di b)).
Proof. apply hyperbolic_decline_np_scalar. Qed.

(** ** Sums *)

Lemma f_add_nan_l (a : f64) : f_add NaN a = NaN.
Proof. reflexivity. Qed.

Lemma f_add_nan_r (a : f64) : f_add a NaN = NaN.
Proof. now destruct a. Qed.

Lemma f_mul_nan_r (a : f64) : f_mul a NaN = NaN.
Proof. now destruct a. Qed.

Lemma f_div_nan_l (a : f64) : f_div NaN a = NaN.
Proof. reflexivity. Qed.

Lemma fold_add_nan (xs : list f64) : fold_left f_add xs NaN = NaN.
Proof. induction xs as [| x xs IH]; [reflexivity | exact IH]. Qed.

Lemma np_sum_nan (xs : list f64) :
  xs <> [] -> Forall (eq NaN) xs -> np_sum xs = NaN.
Proof.
  intros Hne Hall. destruct xs as [| x xs]; [contradiction |].
  inversion Hall as [| ? ? Hx _]; subst. unfold np_sum. cbn.
  apply fold_add_nan.
Qed.

Lemma map2_length {A B C : Type} (f : A -> B -> C) (xs : list A)
  (ys : list B) :
  length (map2 f xs ys) = Nat.min (length xs) (length ys).
Proof.
  revert ys. induction xs as [| x xs IH]; intros [| y ys]; cbn; auto.
Qed.

Lemma map2_Forall_r {A B C : Type} (f : A -> B -> C) (P : B -> Prop)
  (Q : C -> Prop) (xs : list A) (ys : list B) :
  (forall x y, P y -> Q (f x y)) -> Forall P ys -> Forall Q (map2 f xs ys).
Proof.
  intros Hf. revert ys. induction xs as [| x xs IH]; intros [| y ys] Hall;
    cbn; constructor; inversion Hall; subst; auto.
Qed.

Lemma map2_Forall_l {A B C : Type} (f : A -> B -> C) (P : A -> Prop)
  (Q : C -> Prop) (xs : list A) (ys : list B) :
  (forall x y, P x -> Q (f x y)) -> Forall P xs -> Forall Q (map2 f xs ys).
Proof.
  intros Hf. revert ys. induction xs as [| x xs IH]; intros [| y ys] Hall;
    cbn; constructor; inversion Hall; subst; auto.
Qed.

Lemma tl_length {A : Type} (xs : list A) : length (tl xs) = pred (length xs).
Proof. now destruct xs. Qed.

Lemma removelast_length {A : Type} (xs : list A) :
  length (removelast xs) = pred (length xs).
Proof.
  induction xs as [| x xs IH]; [reflexivity |].
  destruct xs as [| y xs]; [reflexivity |].
  change (length (removelast (x :: y :: xs)))
    with (S (length (removelast (y :: xs)))).
  rewrite IH. reflexivity.
Qed.

Lemma Forall_tl {A : Type} (P : A -> Prop) (xs : list A) :
  Forall P xs -> Forall P (tl xs).
Proof. intros H. destruct xs; [constructor | now inversion H]. Qed.

Lemma np_diff_length (xs : list f64) :
  length (np_diff xs) = pred (length xs).
Proof.
  unfold np_diff. rewrite map2_length, tl_length, removelast_length.
  apply Nat.min_id.
Qed.

(** The trapezoid rule on arrays of one length never raises. *)
Lemma np_trapz_same_length (ys xs : list f64) :
  length ys = length xs ->
  np_trapz (Arr ys) (Arr xs)
  = Ok (Np, np_sum (map (fun p => f_div p (Fin 2))
                        (map2 f_mul (np_diff xs)
                              (map2 f_add (tl ys) (removelast ys))))).
Proof.
  intros Hlen. unfold np_trapz, broadcast.
  rewrite np_diff_length, map2_length, tl_length, removelast_length.
  rewrite Nat.min_id, Hlen, Nat.eqb_refl. reflexivity.
Qed.

(** Integrating an all-[nan] curve gives [nan]. *)
Lemma np_trapz_nan (ys xs : list f64) :
  length ys = length xs -> (2 <= length ys)%nat -> Forall (eq NaN) ys ->
  np_trapz (Arr ys) (Arr xs) = Ok (Np, NaN).
Proof.
  intros Hlen H2 Hall. rewrite np_trapz_same_length by assumption.
  do 2 f_equal. apply np_sum_nan.
  - intros Hnil. apply (f_equal (@length f64)) in Hnil.
    rewrite length_map, map2_length, np_diff_length, map2_length,
      tl_length, removelast_length in Hnil.
    cbn in Hnil. lia.
  - apply Forall_map.
    apply (map2_Forall_r f_mul (eq NaN) (fun p => NaN = f_div p (Fin 2))).
    + intros x y <-. now rewrite f_mul_nan_r.
    + apply (map2_Forall_l f_add (eq NaN) (eq NaN)).
      * now intros x y <-.
      * now apply Forall_tl.
Qed.

(** ** The reserve estimator when [b * Di = 0] *)

Lemma inf_of_sign_nonfinite (x : R) : nonfinite (inf_of_sign x).
Proof.
  unfold inf_of_sign. destruct (Rltb 0 x); [exact I |].
  destruct (Rltb x 0); exact I.
Qed.

Lemma inf_of_sign_zero (x : R) : x = 0 -> inf_of_sign x = NaN.
Proof.
  intros ->. unfold inf_of_sign. now rewrite !Rltb_false by lra.
Qed.

Lemma f_div_by_zero_nonfinite (a : f64) (y : R) :
  y = 0 -> nonfinite (f_div a (Fin y)).
Proof.
  intros ->. destruct a; cbn; try exact I.
  - rewrite Reqb_refl. apply inf_of_sign_nonfinite.
  - now rewrite Rltb_false by lra.
  - now rewrite Rltb_false by lra.
Qed.

Lemma f_mul_zero_nonfinite (z : R) (t : f64) :
  z = 0 -> nonfinite t -> f_mul (Fin z) t = NaN.
Proof.
  intros -> Ht. destruct t; cbn; try easy.
  - now apply inf_of_sign_zero.
  - apply inf_of_sign_zero. lra.
Qed.

Lemma f_mul_fin_nonfinite (x : R) (t : f64) :
  nonfinite t -> nonfinite (f_mul (Fin x) t).
Proof.
  intros Ht. destruct t; cbn; try easy; apply inf_of_sign_nonfinite.
Qed.

Lemma f_add_nonfinite_fin (t : f64) (x : R) :
  nonfinite t -> nonfinite (f_add t (Fin x)).
Proof. intros Ht. now destruct t. Qed.

Lemma f_div_nonfinite_pos (t : f64) (x : R) :
  0 < x -> nonfinite t -> nonfinite (f_div t (Fin x)).
Proof.
  intros Hx Ht. destruct t; cbn; try easy; now rewrite Rltb_false by lra.
Qed.

(** A grid that ends at an infinity or at [nan] has no finite point:
    [0 * inf] is [nan]. *)
Lemma np_linspace_nonfinite (stop : f64) (n : nat) :
  nonfinite stop -> Forall nonfinite (np_linspace (Fin 0) stop (S (S n))).
Proof.
  intros Hs. unfold np_linspace.
  apply Forall_app. split; [| now repeat constructor].
  apply Forall_map, Forall_forall. intros i _.
  apply f_add_nonfinite_fin, f_mul_fin_nonfinite, f_div_nonfinite_pos.
  - apply (lt_0_INR (S n)). lia.
  - unfold f_sub. cbn [f_neg]. now apply f_add_nonfinite_fin.
Qed.

Lemma np_linspace_length (start stop : f64) (n : nat) :
  length (np_linspace start stop n) = n.
Proof.
  destruct n as [| [| n]]; [reflexivity | reflexivity |].
  unfold np_linspace.
  rewrite length_app, length_map, length_seq. cbn. lia.
Qed.

Lemma f_pow_nan_base (e : f64) : is_zero e = false -> f_pow NaN e = NaN.
Proof. intros H. unfold f_pow. rewrite H. now destruct e. Qed.

Lemma is_zero_inverse (b : R) : is_zero (f_div (Fin 1) (Fin b)) = false.
Proof.
  cbn. unfold Reqb at 1. destruct (Req_dec_T b 0) as [-> | Hb].
  - unfold inf_of_sign. now rewrite Rltb_true by lra.
  - cbn. apply Reqb_false. unfold Rdiv. rewrite Rmult_1_l.
    now apply Rinv_neq_0_compat.
Qed.

(** Beyond every finite time the curve of a well with [b * Di = 0] is
    [nan] in NumPy arithmetic. *)
Lemma rate_np_nonfinite (t qi : f64) (Di b : R) :
  b * Di = 0 -> nonfinite t -> rate_np t qi (Fin Di) (Fin b) = NaN.
Proof.
  intros Hz Ht. unfold rate_np.
  change (f_mul (Fin b) (Fin Di)) with (Fin (b * Di)).
  rewrite (f_mul_zero_nonfinite _ t Hz Ht). rewrite f_add_nan_r.
  rewrite f_pow_nan_base by apply is_zero_inverse.
  now destruct qi.
Qed.

Lemma s_div_np_l (x : f64) (b : scalar) :
  s_div (Np, x) b = Ok (Np, f_div x (snd b)).
Proof. now destruct b as [[] y]. Qed.

(** With NumPy scalars for the fitted parameters and [b * Di = 0] the
    estimator divides by zero without raising and returns [nan]. *)
Lemma calculate_eur_np_nan (qi Di b : R) (economic_limit : scalar) :
  b * Di = 0 ->
  calculate_eur (Np, Fin qi) (Np, Fin Di) (Np, Fin b) economic_limit
  = Ok (Np, NaN).
Proof.
  intros Hz. unfold calculate_eur.
  rewrite s_div_np_l. cbn [bind s_pow s_sub s_mul s_div scalar_op fst snd lit].
  cbn [f_mul].
  set (num := f_sub _ _).
  set (pts := np_linspace _ _ _).
  assert (Hpts : Forall nonfinite pts).
  { apply np_linspace_nonfinite. now apply f_div_by_zero_nonfinite. }
  rewrite hyperbolic_decline_np_array. cbn [bind].
  apply np_trapz_nan.
  - now rewrite length_map.
  - rewrite length_map. unfold pts. rewrite np_linspace_length. lia.
  - apply Forall_map. revert Hpts. apply Forall_impl.
    intros t Ht. symmetry. now apply rate_np_nonfinite.
Qed.

(** With Python numbers and [b = 0] the estimator raises. *)
Lemma calculate_eur_py_b0 (qi Di economic_limit : R) :
  calculate_eur (lit qi) (lit Di) (lit 0) (lit economic_limit)
  = Raise ZeroDivisionError.
Proof.
  unfold calculate_eur, s_div at 1, scalar_op, lit. cbn [fst snd].
  unfold py_div at 1, is_zero.
  unfold Reqb at 1. destruct (Req_dec_T economic_limit 0) as [-> | Hl].
  - reflexivity.
  - cbn [bind f_div]. rewrite (Reqb_false economic_limit 0) by assumption.
    cbn [s_pow scalar_op fst snd bind py_pow]. rewrite Reqb_refl.
    cbn [bind s_sub s_mul s_div scalar_op total fst snd f_mul].
    unfold py_div, is_zero. rewrite Reqb_true by ring. reflexivity.
Qed.

(** With Python numbers and [Di = 0] the estimator raises. *)
Lemma calculate_eur_py_Di0 (qi b economic_limit : R) :
  0 < economic_limit < qi ->
  calculate_eur (lit qi) (lit 0) (lit b) (lit economic_limit)
  = Raise (if Rltb float_max (Rpower (qi / economic_limit) b)
           then OverflowError else ZeroDivisionError).
Proof.
  intros [Hl Hq]. unfold calculate_eur, s_div at 1, scalar_op, lit.
  cbn [fst snd]. rewrite py_div_fin by lra.
  cbn [bind s_pow scalar_op fst snd].
  assert (Hr : 0 < qi / economic_limit) by (apply Rdiv_lt_0_compat; lra).
  destruct (Req_dec_T b 0) as [-> | Hb].
  - rewrite Rpower_O, (Rltb_false float_max 1)
      by (assumption || apply float_max_ge_1).
    unfold py_pow. rewrite Reqb_refl.
    cbn [bind s_sub s_mul s_div scalar_op total fst snd f_mul f_sub f_neg
           f_add].
    unfold py_div, is_zero. rewrite Reqb_true by ring. reflexivity.
  - rewrite py_pow_pos by assumption.
    destruct (Rltb float_max (Rpower (qi / economic_limit) b));
      [reflexivity |].
    cbn [bind s_sub s_mul s_div scalar_op total fst snd f_mul f_sub f_neg
           f_add].
    unfold py_div, is_zero. rewrite Reqb_true by ring. reflexivity.
Qed.

(** For [b > 0] the time [t_max] of the estimator is where the curve
    meets the economic limit. *)
Lemma t_max_reaches_limit (qi Di b economic_limit : R) :
  0 < b -> 0 < Di -> 0 < economic_limit -> 0 < qi ->
  rate ((Rpower (qi / economic_limit) b - 1) / (b * Di)) qi Di b
  = economic_limit.
Proof.
  intros Hb HD Hl Hq. unfold rate.
  assert (Hr : 0 < qi / economic_limit) by (apply Rdiv_lt_0_compat; lra).
  replace (1 + b * Di * ((Rpower (qi / economic_limit) b - 1) / (b * Di)))
    with (Rpower (qi / economic_limit) b) by (field; lra).
  rewrite Rpower_mult.
  replace (b * (1 / b)) with 1 by (field; lra).
  rewrite Rpower_1 by assumption. field. lra.
Qed.

(** C3.  The reserve estimator computes [t_max] from the inverted
    hyperbolic equation only; there is no exponential form for [b = 0].
    For [b > 0] that time is where the curve meets the limit.  For
    [b = 0] the formula is [0/0]: with Python numbers, as in
    [calculate_eur(1000, 0.10, 0, 10)], the call raises
    [ZeroDivisionError]; with NumPy scalars it returns [nan].  Neither
    gives [t_max = ln(100)/0.10] nor reserves near 9900. *)
Theorem calculate_eur_exponential :
  (forall qi Di b economic_limit : R,
      0 < b -> 0 < Di -> 0 < economic_limit -> 0 < qi ->
      rate ((Rpower (qi / economic_limit) b - 1) / (b * Di)) qi Di b
      = economic_limit) /\
  calculate_eur (lit 1000) (lit (1 / 10)) (lit 0) (lit 10)
  = Raise ZeroDivisionError /\
  (forall qi Di economic_limit : R,
      calculate_eur (lit qi) (lit Di) (lit 0) (lit economic_limit)
      = Raise ZeroDivisionError) /\
  (forall (qi Di : R) (economic_limit : scalar),
      calculate_eur (Np, Fin qi) (Np, Fin Di) (Np, Fin 0) economic_limit
      = Ok (Np, NaN)).
Proof.
  split; [exact t_max_reaches_limit |].
  split; [apply calculate_eur_py_b0 |].
  split; [exact calculate_eur_py_b0 |].
  intros qi Di economic_limit. apply calculate_eur_np_nan. ring.
Qed.

(** C4, as the code has it.  The script defines no
    [UnboundedReserveError] and the estimator does not test [Di].  For
    [Di = 0] and [qi] above a positive limit it does not loop.  With
    Python numbers it raises an arithmetic error: [ZeroDivisionError] at
    the division by [b * Di = 0], or before that [OverflowError] at the
    power [(qi/economic_limit) ** b]; where the quotient
    [qi/economic_limit] is within the floats, the error is the
    [OverflowError] exactly when the power is beyond them.  With NumPy
    scalars for the parameters the division gives a [t_max] that is
    infinite or [nan], nothing is raised, and the function returns
    [nan]. *)
Theorem calculate_eur_zero_decline :
  forall qi b economic_limit : R,
    0 < economic_limit < qi ->
    (exists e : exn,
        calculate_eur (lit qi) (lit 0) (lit b) (lit economic_limit)
        = Raise e /\
        (e = ZeroDivisionError \/ e = OverflowError)) /\
    (qi / economic_limit <= float_max ->
     calculate_eur (lit qi) (lit 0) (lit b) (lit economic_limit)
     = Raise (if Rltb float_max (Rpower (qi / economic_limit) b)
              then OverflowError else ZeroDivisionError)) /\
    forall limit' : scalar,
      calculate_eur (Np, Fin qi) (Np, Fin 0) (Np, Fin b) limit'
      = Ok (Np, NaN).
Proof.
  intros qi b economic_limit H. repeat apply conj.
  - rewrite calculate_eur_py_Di0 by assumption.
    destruct (Rltb float_max (Rpower (qi / economic_limit) b));
      eexists; (split; [reflexivity |]); [now right | now left].
  - intros _. now apply calculate_eur_py_Di0.
  - intros limit'. apply calculate_eur_np_nan. ring.
Qed.

Lemma calculate_eur_zero_decline_witness :
  (exists e : exn,
      calculate_eur (lit 1000) (lit 0) (lit 1) (lit 10) = Raise e /\
      (e = ZeroDivisionError \/ e = OverflowError)) /\
  (1000 / 10 <= float_max ->
   calculate_eur (lit 1000) (lit 0) (lit 1) (lit 10)
   = Raise (if Rltb float_max (Rpower (1000 / 10) 1)
            then OverflowError else ZeroDivisionError)) /\
  forall limit' : scalar,
    calculate_eur (Np, Fin 1000) (Np, Fin 0) (Np, Fin 1) limit'
    = Ok (Np, NaN).
Proof. apply (calculate_eur_zero_decline 1000 1 10). lra. Defined.

Lemma hundred_within_floats : Rltb float_max (Rpower (1000 / 10) 1) = false.
Proof.
  apply Rltb_false. rewrite Rpower_1 by lra.
  apply Rle_trans with (2 ^ 1023); [| apply float_max_ge].
  replace (1000 / 10) with 100 by field.
  apply Rle_trans with (2 ^ 7); [cbn; lra |].
  apply Rle_pow; [lra | lia].
Qed.

(** C4 as claimed fails at [calculate_eur(1000, 0, 1, 10)]: the error
    raised is a [ZeroDivisionError], not an [UnboundedReserveError], and
    with NumPy scalars no error is raised at all. *)
Lemma calculate_eur_zero_decline_counterexample :
  calculate_eur (lit 1000) (lit 0) (lit 1) (lit 10)
  = Raise ZeroDivisionError /\
  calculate_eur (lit 1000) (lit 0) (lit 1) (lit 10)
  <> Raise "UnboundedReserveError"%string /\
  calculate_eur (Np, Fin 1000) (Np, Fin 0) (Np, Fin 1) (lit 10)
  = Ok (Np, NaN).
Proof.
  assert (H : calculate_eur (lit 1000) (lit 0) (lit 1) (lit 10)
              = Raise ZeroDivisionError).
  { rewrite calculate_eur_py_Di0 by lra.
    now rewrite hundred_within_floats. }
  split; [exact H | split].
  - rewrite H. discriminate.
  - apply calculate_eur_np_nan. ring.
Qed.

(** With [b = 400] the power [100 ** 400] is beyond the floats and the
    error is the [OverflowError]. *)
Lemma calculate_eur_overflow :
  calculate_eur (lit 1000) (lit 0) (lit 400) (lit 10) = Raise OverflowError.
Proof.
  rewrite calculate_eur_py_Di0 by lra.
  rewrite Rltb_true; [reflexivity |].
  replace (1000 / 10) with 100 by field.
  replace 400 with (INR 400) by (rewrite INR_IZR_INZ; reflexivity).
  rewrite Rpower_pow by lra.
  apply Rlt_le_trans with (2 ^ 1024); [apply float_max_lt |].
  apply Rle_trans with (2 ^ (6 * 400)).
  - apply Rle_pow; [lra | lia].
  - rewrite pow_mult. apply pow_incr. cbn [pow]. lra.
Qed.

(** ** Monthly aggregation *)

Section Grouping.

Lemma insert_key_In (k k' : Z) (ks : list Z) :
  In k' (insert_key k ks) <-> k' = k \/ In k' ks.
Proof.
  induction ks as [| h ks IH]; cbn.
  - intuition.
  - destruct (Z.ltb_spec k h); [cbn; intuition |].
    destruct (Z.eqb_spec k h) as [-> | Hne]; cbn; [intuition |].
    rewrite IH. intuition.
Qed.

Lemma insert_key_sorted (k : Z) (ks : list Z) :
  StronglySorted Z.lt ks -> StronglySorted Z.lt (insert_key k ks).
Proof.
  induction ks as [| h ks IH]; intros Hs; cbn.
  - repeat constructor.
  - inversion Hs as [| ? ? Hs' Hall]; subst.
    destruct (Z.ltb_spec k h) as [Hlt | Hge].
    + constructor; [assumption |]. constructor; [assumption |].
      revert Hall. apply Forall_impl. intros a Ha. lia.
    + destruct (Z.eqb_spec k h) as [-> | Hne]; [assumption |].
      constructor; [now apply IH |].
      apply Forall_forall. intros a Ha. apply insert_key_In in Ha.
      destruct Ha as [-> | Ha]; [lia |].
      rewrite Forall_forall in Hall. now apply Hall.
Qed.

Lemma group_keys_In (df : list Daily.row) (k : Z) :
  In k (group_keys df) <-> exists o, In o df /\ year_month_of o = k.
Proof.
  induction df as [| o df IH]; cbn.
  - split; [contradiction | now intros [? [[] _]]].
  - rewrite insert_key_In, IH. split.
    + intros [-> | [o' [Hin Hk]]]; eauto.
    + intros [o' [[<- | Hin] Hk]]; eauto.
Qed.

Lemma group_keys_sorted (df : list Daily.row) :
  StronglySorted Z.lt (group_keys df).
Proof.
  induction df as [| o df IH]; cbn; [constructor |].
  now apply insert_key_sorted.
Qed.

End Grouping.

Lemma map_map2 {A B C D : Type} (g : C -> D) (f : A -> B -> C)
  (xs : list A) (ys : list B) :
  map g (map2 f xs ys) = map2 (fun x y => g (f x y)) xs ys.
Proof.
  revert ys. induction xs as [| x xs IH]; intros [| y ys]; cbn; f_equal; auto.
Qed.

Lemma map2_snd {A B C : Type} (h : B -> C) (xs : list A) (ys : list B) :
  length xs = length ys -> map2 (fun _ y => h y) xs ys = map h ys.
Proof.
  revert ys. induction xs as [| x xs IH]; intros [| y ys] H; cbn in *;
    try discriminate; f_equal; auto.
Qed.

Lemma map2_fst {A B C : Type} (h : A -> C) (xs : list A) (ys : list B) :
  length xs = length ys -> map2 (fun x _ => h x) xs ys = map h xs.
Proof.
  revert ys. induction xs as [| x xs IH]; intros [| y ys] H; cbn in *;
    try discriminate; f_equal; auto.
Qed.

Lemma aggregate_length (df : list Daily.row) :
  length (aggregate df) = length (group_keys df).
Proof.
  unfold aggregate. rewrite map2_length, length_seq. apply Nat.min_id.
Qed.

Lemma aggregate_year_month (df : list Daily.row) :
  map Monthly.year_month (aggregate df) = group_keys df.
Proof.
  unfold aggregate. rewrite map_map2. cbn.
  rewrite (map2_snd (fun k => k)) by apply length_seq. apply map_id.
Qed.

Lemma aggregate_months_on_production (df : list Daily.row) :
  map Monthly.months_on_production (aggregate df)
  = map Z.of_nat (seq 0 (length (aggregate df))).
Proof.
  rewrite aggregate_length. unfold aggregate. rewrite map_map2. cbn.
  apply map2_fst. apply length_seq.
Qed.

Lemma map2_Forall {A B C : Type} (f : A -> B -> C) (Q : C -> Prop)
  (xs : list A) (ys : list B) :
  (forall x y, Q (f x y)) -> Forall Q (map2 f xs ys).
Proof.
  intros Hf. revert ys.
  induction xs as [| x xs IH]; intros [| y ys]; cbn; constructor; auto.
Qed.

(** The ['sum'] of a column of numbers is their sum. *)
Lemma fold_add_fin (xs : list R) (a : R) :
  fold_left f_add (map Fin xs) (Fin a) = Fin (fold_left Rplus xs a).
Proof.
  revert a. induction xs as [| x xs IH]; intros a; cbn; [reflexivity |].
  apply IH.
Qed.

Lemma pd_sum_fin (xs : list R) :
  pd_sum (map Fin xs) = Fin (fold_left Rplus xs 0).
Proof.
  unfold pd_sum, np_sum.
  replace (filter (fun x => negb (is_nan x)) (map Fin xs)) with (map Fin xs).
  - apply fold_add_fin.
  - induction xs as [| x xs IH]; cbn; [reflexivity | now f_equal].
Qed.

(** *** Sums of a column *)

Lemma fold_add_volume (xs : list f64) (a : R) :
  Forall not_infinite xs ->
  fold_left f_add (filter (fun x => negb (is_nan x)) xs) (Fin a)
  = Fin (a + Rsum (map volume xs)).
Proof.
  intros Hall. revert a.
  induction Hall as [| x xs Hx _ IH]; intros a; cbn [filter map Rsum].
  - cbn. f_equal. ring.
  - destruct x as [y | | |]; cbn in Hx; try contradiction;
      cbn [is_nan negb fold_left f_add volume]; rewrite IH; f_equal; ring.
Qed.

(** The sum of pandas over a column without infinities is the sum of
    its numbers; missing values add nothing. *)
Lemma pd_sum_volume (xs : list f64) :
  Forall not_infinite xs -> pd_sum xs = Fin (Rsum (map volume xs)).
Proof.
  intros Hall. unfold pd_sum, np_sum. rewrite fold_add_volume by assumption.
  f_equal. ring.
Qed.

Lemma Rsum_filter {A : Type} (p : A -> bool) (v : A -> R) (l : list A) :
  Rsum (map v (filter p l)) = Rsum (map (fun o => if p o then v o else 0) l).
Proof.
  induction l as [| o l IH]; [reflexivity |]. cbn [filter map Rsum].
  destruct (p o); cbn [map Rsum]; rewrite IH; ring.
Qed.

Lemma Rsum_plus {A : Type} (g h : A -> R) (l : list A) :
  Rsum (map (fun x => g x + h x) l) = Rsum (map g l) + Rsum (map h l).
Proof.
  induction l as [| x l IH]; cbn [map Rsum]; [ring | rewrite IH; ring].
Qed.

Lemma Rsum_zero {A : Type} (l : list A) : Rsum (map (fun _ => 0) l) = 0.
Proof. induction l as [| x l IH]; cbn [map Rsum]; [| rewrite IH]; ring. Qed.

(** A sum over months of sums over observations is the sum over
    observations of sums over months. *)
Lemma Rsum_swap {A B : Type} (f : A -> B -> R) (ks : list A) (l : list B) :
  Rsum (map (fun k => Rsum (map (fun o => f k o) l)) ks)
  = Rsum (map (fun o => Rsum (map (fun k => f k o) ks)) l).
Proof.
  induction ks as [| k ks IH]; cbn [map Rsum].
  - now rewrite Rsum_zero.
  - now rewrite IH, Rsum_plus.
Qed.

Lemma Rsum_absent (k0 : Z) (v : R) (ks : list Z) :
  ~ In k0 ks -> Rsum (map (fun k => if (k0 =? k)%Z then v else 0) ks) = 0.
Proof.
  induction ks as [| k ks IH]; intros Hnin; cbn [map Rsum]; [reflexivity |].
  destruct (Z.eqb_spec k0 k) as [-> | _].
  - exfalso. apply Hnin. now left.
  - rewrite IH; [ring |]. intros Hin. apply Hnin. now right.
Qed.

(** Among distinct months, an observation belongs to one. *)
Lemma Rsum_present (k0 : Z) (v : R) (ks : list Z) :
  NoDup ks -> In k0 ks ->
  Rsum (map (fun k => if (k0 =? k)%Z then v else 0) ks) = v.
Proof.
  induction 1 as [| k ks Hnin _ IH]; intros Hin; [contradiction |].
  cbn [map Rsum]. destruct (Z.eqb_spec k0 k) as [-> | Hne].
  - rewrite Rsum_absent by assumption. ring.
  - destruct Hin as [-> | Hin]; [contradiction |]. rewrite IH by assumption.
    ring.
Qed.

Lemma sorted_NoDup (ks : list Z) : StronglySorted Z.lt ks -> NoDup ks.
Proof.
  induction 1 as [| k ks _ IH Hall]; constructor; [| assumption].
  intros Hin. rewrite Forall_forall in Hall. specialize (Hall k Hin). lia.
Qed.

(** The rows of a group add up to the total of their month over all the
    observations. *)
Lemma group_sum (col : Daily.row -> f64) (k : Z) (df : list Daily.row) :
  Forall not_infinite (map col df) ->
  pd_sum (map col (group_rows k df)) = Fin (month_total col k df).
Proof.
  intros Hall. rewrite pd_sum_volume.
  - f_equal. unfold group_rows, month_total, year_month_of.
    rewrite map_map. apply Rsum_filter.
  - rewrite Forall_map in *. rewrite Forall_forall in *.
    intros o Ho. apply Hall. unfold group_rows in Ho.
    now apply filter_In in Ho.
Qed.

(** Every observation is counted in one month: the totals of the months
    add up to the total of the observations. *)
Lemma month_totals_add_up (col : Daily.row -> f64) (df : list Daily.row) :
  Rsum (map (fun k => month_total col k df) (group_keys df))
  = Rsum (map (fun o => volume (col o)) df).
Proof.
  unfold month_total.
  rewrite (Rsum_swap
             (fun k o => if (to_period_M (Daily.production_date o) =? k)%Z
                         then volume (col o) else 0)).
  f_equal. apply map_ext_in. intros o Ho.
  apply Rsum_present.
  - apply sorted_NoDup, group_keys_sorted.
  - apply group_keys_In. now exists o.
Qed.

Lemma aggregate_columns (df : list Daily.row) :
  map Monthly.oil_volume (aggregate df)
  = map (fun k => pd_sum (map Daily.oil_volume (group_rows k df)))
        (group_keys df) /\
  map Monthly.gas_volume (aggregate df)
  = map (fun k => pd_sum (map Daily.gas_volume (group_rows k df)))
        (group_keys df) /\
  map Monthly.water_volume (aggregate df)
  = map (fun k => pd_sum (map Daily.water_volume (group_rows k df)))
        (group_keys df).
Proof.
  unfold aggregate. rewrite !map_map2. cbn.
  repeat split;
    match goal with
    | |- map2 (fun _ k => ?h) _ _ = _ =>
        apply (map2_snd (fun k => h)), length_seq
    end.
Qed.

Lemma group_totals (col : Daily.row -> f64) (df : list Daily.row) :
  Forall not_infinite (map col df) ->
  map (fun k => pd_sum (map col (group_rows k df))) (group_keys df)
  = map (fun k => Fin (month_total col k df)) (group_keys df).
Proof. intros Hall. apply map_ext. intros k. now apply group_sum. Qed.

(** The monthly oil volumes are numbers, and they add up to the total of
    the observations. *)
Lemma monthly_oil_total (df : list Daily.row) :
  Forall not_infinite (map Daily.oil_volume df) ->
  Forall not_infinite (map Monthly.oil_volume (aggregate df)) /\
  Rsum (map volume (map Monthly.oil_volume (aggregate df)))
  = Rsum (map volume (map Daily.oil_volume df)).
Proof.
  intros Hall. destruct (aggregate_columns df) as [-> _].
  rewrite group_totals by assumption. split.
  - apply Forall_map, Forall_forall. now intros k _.
  - rewrite !map_map. cbn [volume]. apply month_totals_add_up.
Qed.

Lemma monthly_gas_total (df : list Daily.row) :
  Forall not_infinite (map Daily.gas_volume df) ->
  Rsum (map volume (map Monthly.gas_volume (aggregate df)))
  = Rsum (map volume (map Daily.gas_volume df)).
Proof.
  intros Hall. destruct (aggregate_columns df) as [_ [-> _]].
  rewrite group_totals by assumption.
  rewrite !map_map. cbn [volume]. apply month_totals_add_up.
Qed.

Lemma monthly_water_total (df : list Daily.row) :
  Forall not_infinite (map Daily.water_volume df) ->
  Rsum (map volume (map Monthly.water_volume (aggregate df)))
  = Rsum (map volume (map Daily.water_volume df)).
Proof.
  intros Hall. destruct (aggregate_columns df) as [_ [_ ->]].
  rewrite group_totals by assumption.
  rewrite !map_map. cbn [volume]. apply month_totals_add_up.
Qed.

(** Two dates have one month number when they have one year and one
    month of the year. *)
Lemma to_period_M_calendar (d1 d2 : Date) :
  (1 <= month d1 <= 12)%Z -> (1 <= month d2 <= 12)%Z ->
  to_period_M d1 = to_period_M d2
  <-> year d1 = year d2 /\ month d1 = month d2.
Proof. unfold to_period_M. lia. Qed.

(** C8.  The aggregation has one row per calendar month that occurs in
    the observations (a year and a month of the year), in chronological
    order.  The volumes of a row are the sums over the observations of
    its month: on columns without infinities, the number obtained by
    adding, over all the observations, the volume of those dated in that
    month (a missing volume adds nothing); and the monthly volumes add up
    to the total of the observations, each of which is counted in one
    month.  [months_on_production] is the rank 0, 1, 2, ... of the row,
    whatever calendar gaps there are; no observation gives no row. *)
Theorem aggregate_spec :
  forall df : list Daily.row,
    let monthly := aggregate df in
    StronglySorted Z.lt (map Monthly.year_month monthly) /\
    (forall k : Z, In k (map Monthly.year_month monthly) <->
                   exists o, In o df /\
                             to_period_M (Daily.production_date o) = k) /\
    (forall d1 d2 : Date,
        (1 <= month d1 <= 12)%Z -> (1 <= month d2 <= 12)%Z ->
        to_period_M d1 = to_period_M d2
        <-> year d1 = year d2 /\ month d1 = month d2) /\
    Forall (fun m =>
              let k := Monthly.year_month m in
              (Forall not_infinite (map Daily.oil_volume df) ->
               Monthly.oil_volume m
               = Fin (month_total Daily.oil_volume k df)) /\
              (Forall not_infinite (map Daily.gas_volume df) ->
               Monthly.gas_volume m
               = Fin (month_total Daily.gas_volume k df)) /\
              (Forall not_infinite (map Daily.water_volume df) ->
               Monthly.water_volume m
               = Fin (month_total Daily.water_volume k df)))
           monthly /\
    (Forall not_infinite (map Daily.oil_volume df) ->
     Rsum (map volume (map Monthly.oil_volume monthly))
     = Rsum (map volume (map Daily.oil_volume df))) /\
    (Forall not_infinite (map Daily.gas_volume df) ->
     Rsum (map volume (map Monthly.gas_volume monthly))
     = Rsum (map volume (map Daily.gas_volume df))) /\
    (Forall not_infinite (map Daily.water_volume df) ->
     Rsum (map volume (map Monthly.water_volume monthly))
     = Rsum (map volume (map Daily.water_volume df))) /\
    map Monthly.months_on_production monthly
    = map Z.of_nat (seq 0 (length monthly)) /\
    aggregate [] = [].
Proof.
  intros df monthly. unfold monthly.
  rewrite aggregate_year_month.
  split; [apply group_keys_sorted |].
  split; [apply group_keys_In |].
  split; [exact to_period_M_calendar |].
  split.
  { unfold aggregate. apply map2_Forall. intros i k. cbn.
    repeat split; intros Hall; now apply group_sum. }
  split; [apply monthly_oil_total |].
  split; [apply monthly_gas_total |].
  split; [apply monthly_water_total |].
  split; [apply aggregate_months_on_production | reflexivity].
Qed.

(** Three observations in January 2008 and one in March give two rows,
    of ranks 0 and 1, the first with the sum of the three. *)
Lemma aggregate_two_months :
  let obs (y m d : Z) (v : R) :=
    {| Daily.production_date := {| year := y; month := m; day := d |};
       Daily.oil_volume := Fin v;
       Daily.gas_volume := Fin 0;
       Daily.water_volume := Fin 0 |} in
  let monthly :=
    aggregate [obs 2008%Z 3%Z 9%Z 7; obs 2008%Z 1%Z 2%Z 1;
               obs 2008%Z 1%Z 30%Z 2; obs 2008%Z 1%Z 17%Z 4] in
  map Monthly.year_month monthly = [456; 458]%Z /\
  map Monthly.months_on_production monthly = [0; 1]%Z /\
  map Monthly.oil_volume monthly
  = [Fin (0 + 1 + 2 + 4); Fin (0 + 7)].
Proof. cbv zeta. repeat split. Qed.

(** ** The fitting window *)

Lemma filter_from_rank (l : list Monthly.row) (s : nat) :
  map Monthly.months_on_production l = map Z.of_nat (seq s (length l)) ->
  recent_data l = skipn (70 - s) l.
Proof.
  revert s. induction l as [| m l IH]; intros s H.
  - now rewrite skipn_nil.
  - cbn in H. injection H as Hm Hl. specialize (IH (S s) Hl).
    unfold recent_data in *. cbn [filter]. rewrite Hm.
    destruct (Z.leb_spec 70 (Z.of_nat s)) as [Hge | Hlt].
    + replace (70 - s)%nat with 0%nat in * by lia.
      replace (70 - S s)%nat with 0%nat in IH by lia.
      cbn in *. now rewrite IH.
    + replace (70 - s)%nat with (S (70 - S s)) by lia. exact IH.
Qed.

Lemma recent_data_skipn (df : list Daily.row) :
  recent_data (aggregate df) = skipn 70 (aggregate df).
Proof.
  apply (filter_from_rank (aggregate df) 0).
  apply aggregate_months_on_production.
Qed.

Lemma shifted_ranks (a k : nat) :
  map (fun x => Fin (IZR (Z.of_nat x - 70))) (seq (a + 70) k)
  = map (fun i => Fin (INR i)) (seq a k).
Proof.
  revert a. induction k as [| k IH]; intros a; [reflexivity |].
  cbn [seq map]. f_equal.
  - rewrite INR_IZR_INZ. do 2 f_equal. lia.
  - apply (IH (S a)).
Qed.

Lemma fit_times_skipn (df : list Daily.row) :
  fit_times (skipn 70 (aggregate df))
  = map (fun i => Fin (INR i)) (seq 0 (length (aggregate df) - 70)).
Proof.
  unfold fit_times.
  rewrite <- (map_map Monthly.months_on_production
                      (fun z => Fin (IZR (z - 70)))).
  rewrite <- skipn_map, aggregate_months_on_production, skipn_map.
  rewrite skipn_seq, map_map. apply (shifted_ranks 0).
Qed.

(** C5, as the code has it.  The comments of the script call the
    window the last 20 months ("LAST 20 MONTHS ONLY", "months 70-89").
    The code selects the rows with [months_on_production >= 70], that is
    the series without its first 70 periods, and re-bases their times to
    0, 1, 2, ...  This window is the last 20 periods of the series only
    when the series has 90 periods (or none): on any other series the
    code does not do what its comments say. *)
Theorem fitting_window :
  forall df : list Daily.row,
    let monthly := aggregate df in
    recent_data monthly = skipn 70 monthly /\
    length (recent_data monthly) = (length monthly - 70)%nat /\
    fit_times (recent_data monthly)
    = map (fun i => Fin (INR i)) (seq 0 (length monthly - 70)) /\
    (recent_data monthly = skipn (length monthly - 20) monthly
     <-> length monthly = 90%nat \/ length monthly = 0%nat) /\
    (length (recent_data monthly) = 20%nat <-> length monthly = 90%nat).
Proof.
  intros df monthly. unfold monthly. rewrite recent_data_skipn.
  split; [reflexivity |].
  split; [apply length_skipn |].
  split; [apply fit_times_skipn |].
  split; [| rewrite length_skipn; lia].
  split.
  - intros Heq. apply (f_equal (@length Monthly.row)) in Heq.
    rewrite !length_skipn in Heq. lia.
  - intros [H90 | H0].
    + now rewrite H90.
    + apply length_zero_iff_nil in H0. rewrite H0. reflexivity.
Qed.

Lemma one_per_month_keys (n : nat) (v : f64) :
  (n <= 120)%nat ->
  group_keys (one_per_month n v)
  = map (fun i => (456 + Z.of_nat i)%Z) (seq 0 n).
Proof.
  intros Hn. do 121 (destruct n as [| n]; [vm_compute; reflexivity |]). lia.
Qed.

(** On a series of 91 months the window has 21 periods, the months 70 to
    90, and is not the last 20. *)
Lemma fitting_window_91_months :
  let monthly := aggregate (one_per_month 91 (Fin 1)) in
  length monthly = 91%nat /\
  length (recent_data monthly) = 21%nat /\
  recent_data monthly <> skipn (length monthly - 20) monthly /\
  map Monthly.months_on_production (recent_data monthly)
  = map Z.of_nat (seq 70 21).
Proof.
  cbv zeta.
  assert (Hlen : length (aggregate (one_per_month 91 (Fin 1))) = 91%nat).
  { rewrite aggregate_length, one_per_month_keys by lia.
    now rewrite length_map, length_seq. }
  rewrite recent_data_skipn.
  split; [exact Hlen |].
  split; [rewrite length_skipn, Hlen; reflexivity |].
  split.
  - intros Heq. apply (f_equal (@length Monthly.row)) in Heq.
    rewrite !length_skipn, Hlen in Heq. discriminate.
  - rewrite <- skipn_map, aggregate_months_on_production, Hlen, skipn_map.
    now rewrite skipn_seq.
Qed.

(** ** The forecast *)

Lemma forecast_rows_from (start : nat) (last : Z) (qi Di b : f64)
  (n a : nat) :
  map2 (fun (dm : Z * Z) p =>
          {| Forecast.forecast_date := fst dm;
             Forecast.months_on_production := snd dm;
             Forecast.predicted_oil := p |})
       (combine (map (fun i => (last + 1 + Z.of_nat i)%Z) (seq a n))
                (map (fun i => Z.of_nat i) (seq (a + 90) n)))
       (map (fun t => rate_np t qi Di b)
            (map (fun i => Fin (INR i)) (seq (a + start) n)))
  = map (forecast_row start last qi Di b) (seq a n).
Proof.
  revert a. induction n as [| n IH]; intros a; [reflexivity |].
  cbn [seq map combine map2]. f_equal. apply (IH (S a)).
Qed.

Lemma series_max_some (xs : list Z) :
  xs <> [] -> exists m, series_max xs = Some m.
Proof. destruct xs; [contradiction | cbn; eauto]. Qed.

Lemma fold_max_ge (xs : list Z) (a : Z) :
  (a <= fold_left Z.max xs a)%Z /\
  Forall (fun x => (x <= fold_left Z.max xs a)%Z) xs /\
  (fold_left Z.max xs a = a \/ In (fold_left Z.max xs a) xs).
Proof.
  revert a. induction xs as [| x xs IH]; intros a; cbn.
  - split; [lia | split; [constructor | now left]].
  - destruct (IH (Z.max a x)) as [H1 [H2 H3]].
    split; [lia |]. split; [constructor; [lia | exact H2] |].
    destruct H3 as [H3 | H3]; [| now right; right].
    rewrite H3. destruct (Z.max_spec a x) as [[_ ->] | [_ ->]]; auto.
Qed.

(** [series_max] is the latest month of the series. *)
Lemma series_max_spec (xs : list Z) (m : Z) :
  series_max xs = Some m -> In m xs /\ Forall (fun x => (x <= m)%Z) xs.
Proof.
  destruct xs as [| x xs]; [discriminate |]. cbn. intros [= <-].
  destruct (fold_max_ge xs x) as [H1 [H2 H3]].
  split; [destruct H3 as [-> | H3]; auto | now constructor].
Qed.

Lemma forecast_np (start n : nat) (monthly : list Monthly.row)
  (qi Di b : f64) (last : Z) :
  series_max (map Monthly.year_month monthly) = Some last ->
  forecast start n monthly (Np, qi) (Np, Di) (Np, b)
  = Ok (map (forecast_row start last qi Di b) (seq 0 n)).
Proof.
  intros Hmax. unfold forecast.
  rewrite hyperbolic_decline_np_array. cbn [bind]. rewrite Hmax.
  unfold forecast_frame, date_range, np_arange.
  rewrite !length_map, !length_seq.
  replace (start + n - start)%nat with n by lia.
  rewrite Nat.eqb_refl. cbn [andb].
  f_equal. apply (forecast_rows_from start last qi Di b n 0).
Qed.

(** C7.  For every fitted parameter set, start offset, horizon
    [forecast_months] and non-empty monthly series, the forecast succeeds
    and has exactly [forecast_months] rows, however small the predicted
    volumes are; the date of row [i] is [i + 1] months after the last
    month of the series, and its volume is the decline function at time
    [start + i].  The script runs it with start offset 20 and horizon
    120. *)
Theorem forecast_spec :
  forall (start forecast_months : nat) (monthly : list Monthly.row)
         (qi Di b : f64),
    monthly <> [] ->
    exists (last_date : Z) (rows : list Forecast.row),
      In last_date (map Monthly.year_month monthly) /\
      Forall (fun d => (d <= last_date)%Z) (map Monthly.year_month monthly) /\
      forecast start forecast_months monthly (Np, qi) (Np, Di) (Np, b)
      = Ok rows /\
      length rows = forecast_months /\
      map Forecast.forecast_date rows
      = map (fun i => (last_date + 1 + Z.of_nat i)%Z) (seq 0 forecast_months) /\
      forall i : nat, (i < forecast_months)%nat ->
        exists r : Forecast.row,
          nth_error rows i = Some r /\
          Forecast.forecast_date r = (last_date + 1 + Z.of_nat i)%Z /\
          hyperbolic_decline (Scal (Np, Fin (INR (start + i))))
                             (Scal (Np, qi)) (Scal (Np, Di)) (Scal (Np, b))
          = Ok (Scal (Np, Forecast.predicted_oil r)).
Proof.
  intros start n monthly qi Di b Hne.
  destruct (series_max_some (map Monthly.year_month monthly)) as [last Hmax].
  { destruct monthly; [contradiction | discriminate]. }
  destruct (series_max_spec _ _ Hmax) as [Hin Hle].
  exists last, (map (forecast_row start last qi Di b) (seq 0 n)).
  split; [exact Hin |]. split; [exact Hle |].
  split; [now apply forecast_np |].
  split; [now rewrite length_map, length_seq |].
  split; [now rewrite map_map |].
  intros i Hi. exists (forecast_row start last qi Di b i).
  split; [| split; [reflexivity |]].
  - rewrite nth_error_map, nth_error_seq.
    destruct (Nat.ltb_spec i n); [reflexivity | lia].
  - rewrite (Nat.add_comm start i). apply rate_np_scalar_call.
Qed.

Lemma forecast_spec_witness :
  exists (last_date : Z) (rows : list Forecast.row),
    let monthly := aggregate (one_per_month 3 (Fin 5)) in
    let qi := Fin 1000 in
    let Di := Fin (1 / 10) in
    let b := Fin 1 in
    In last_date (map Monthly.year_month monthly) /\
    Forall (fun d => (d <= last_date)%Z) (map Monthly.year_month monthly) /\
    forecast 0 12 monthly (Np, qi) (Np, Di) (Np, b) = Ok rows /\
    length rows = 12%nat /\
    map Forecast.forecast_date rows
    = map (fun i => (last_date + 1 + Z.of_nat i)%Z) (seq 0 12) /\
    forall i : nat, (i < 12)%nat ->
      exists r : Forecast.row,
        nth_error rows i = Some r /\
        Forecast.forecast_date r = (last_date + 1 + Z.of_nat i)%Z /\
        hyperbolic_decline (Scal (Np, Fin (INR (0 + i)))) (Scal (Np, qi))
                           (Scal (Np, Di)) (Scal (Np, b))
        = Ok (Scal (Np, Forecast.predicted_oil r)).
Proof.
  apply (forecast_spec 0 12 (aggregate (one_per_month 3 (Fin 5)))
                       (Fin 1000) (Fin (1 / 10)) (Fin 1)).
  intros H. apply (f_equal (@length Monthly.row)) in H.
  rewrite aggregate_length, one_per_month_keys in H by lia. discriminate.
Defined.

(** ** The analysis *)

Lemma goodness_of_fit_np (t q : list f64) (qi Di b : f64) :
  length t = length q ->
  goodness_of_fit t q (Np, qi) (Np, Di) (Np, b)
  = Ok (Np,
        f_sub (Fin 1)
          (f_div
             (np_sum (map (fun x => f_pow x (Fin 2))
                          (map2 f_sub q (map (fun x => rate_np x qi Di b) t))))
             (np_sum (map (fun x => f_pow x (Fin 2))
                          (map (fun x => f_sub x (snd (np_mean q))) q))))).
Proof.
  intros Hlen. unfold goodness_of_fit.
  rewrite hyperbolic_decline_np_array. cbn [bind].
  unfold v_sub at 1, binop, broadcast.
  rewrite length_map, Hlen, Nat.eqb_refl. cbn [bind].
  reflexivity.
Qed.

Lemma future_reserves_np (qi Di b : f64) :
  exists fut : f64, future_reserves (Np, qi) (Np, Di) (Np, b) = Ok (Np, fut).
Proof.
  unfold future_reserves. rewrite hyperbolic_decline_np_array. cbn [bind].
  rewrite np_trapz_same_length by apply length_map. eauto.
Qed.

Lemma fit_times_length (recent : list Monthly.row) :
  length (fit_times recent) = length (fit_volumes recent).
Proof. unfold fit_times, fit_volumes. now rewrite !length_map. Qed.

Section AnalysisFacts.

Variable curve_fit :
  (value -> value -> value -> value -> result value) ->
  list f64 -> list f64 -> list f64 -> list f64 * list f64 -> Z ->
  result (f64 * f64 * f64).

Lemma fit_ok_nonempty (recent : list Monthly.row) (p : f64 * f64 * f64) :
  fit curve_fit recent = Ok p -> recent <> [].
Proof. intros H ->. discriminate. Qed.

Lemma recent_nonempty (monthly : list Monthly.row) :
  recent_data monthly <> [] -> monthly <> [].
Proof. intros H ->. now apply H. Qed.

(** Once the optimizer has answered, nothing in the analysis raises:
    every later operation is NumPy's. *)
Lemma analyze_production_fitted (df : list Daily.row) (qi_f Di_f b_f : f64) :
  fit curve_fit (recent_data (aggregate df)) = Ok (qi_f, Di_f, b_f) ->
  exists (r2 fut : f64) (rows : list Forecast.row),
    goodness_of_fit (fit_times (recent_data (aggregate df)))
                    (fit_volumes (recent_data (aggregate df)))
                    (Np, qi_f) (Np, Di_f) (Np, b_f) = Ok (Np, r2) /\
    future_reserves (Np, qi_f) (Np, Di_f) (Np, b_f) = Ok (Np, fut) /\
    forecast 20 120 (aggregate df) (Np, qi_f) (Np, Di_f) (Np, b_f)
    = Ok rows /\
    analyze_production curve_fit df
    = Ok {| decline_parameters :=
              {| well_id := "WELL_001";
                 qi := qi_f;
                 di := Di_f;
                 b_factor := b_f;
                 r_squared := r2;
                 eur := f_add (pd_sum (map Monthly.oil_volume (aggregate df)))
                              fut;
                 cumulative_production :=
                   pd_sum (map Monthly.oil_volume (aggregate df));
                 remaining_reserves := fut |};
            production_forecast := rows;
            monthly_production := aggregate df |}.
Proof.
  intros Hfit.
  pose proof (recent_nonempty _ (fit_ok_nonempty _ _ Hfit)) as Hne.
  destruct (series_max_some (map Monthly.year_month (aggregate df)))
    as [last Hmax].
  { destruct (aggregate df); [contradiction | discriminate]. }
  destruct (future_reserves_np qi_f Di_f b_f) as [fut Hfut].
  eexists _, fut, _.
  split; [apply goodness_of_fit_np, fit_times_length |].
  split; [exact Hfut |].
  split; [apply forecast_np, Hmax |].
  unfold analyze_production. rewrite Hfit. cbn [bind].
  rewrite goodness_of_fit_np by apply fit_times_length. cbn [bind].
  rewrite Hfut. cbn [bind s_add scalar_op total fst snd].
  rewrite (forecast_np _ _ _ _ _ _ _ Hmax). reflexivity.
Qed.

(** A run that succeeds went through a successful fit. *)
Lemma analyze_production_inv (df : list Daily.row) (tables : Tables) :
  analyze_production curve_fit df = Ok tables ->
  fit curve_fit (recent_data (aggregate df))
  = Ok (qi (decline_parameters tables), di (decline_parameters tables),
        b_factor (decline_parameters tables)).
Proof.
  intros H.
  destruct (fit curve_fit (recent_data (aggregate df)))
    as [[[qi_f Di_f] b_f] | e |] eqn:Hfit;
    [| unfold analyze_production in H; rewrite Hfit in H; discriminate ..].
  destruct (analyze_production_fitted df qi_f Di_f b_f Hfit)
    as [r2 [fut [rows [_ [_ [_ Hrun]]]]]].
  rewrite Hrun in H. injection H as <-. reflexivity.
Qed.

End AnalysisFacts.

(** ** R² on a window of equal volumes *)

Lemma Int_part_2 : Int_part 2 = 2%Z.
Proof. symmetry. apply Int_part_spec. lra. Qed.

(** The power [** 2] is the square. *)
Lemma f_pow_square (x : R) : f_pow (Fin x) (Fin 2) = Fin (x * x).
Proof.
  unfold f_pow, is_zero. rewrite (Reqb_false 2 0) by lra.
  destruct (Req_dec_T x 1) as [-> | H1].
  { rewrite Reqb_refl. f_equal. ring. }
  rewrite (Reqb_false x 1) by assumption.
  destruct (Rlt_dec 0 x) as [Hpos | Hneg].
  { rewrite Rltb_true by assumption. f_equal.
    replace 2 with (INR 2) by (rewrite INR_IZR_INZ; reflexivity).
    rewrite Rpower_pow by assumption. cbn [pow]. ring. }
  rewrite Rltb_false by lra.
  destruct (Req_dec_T x 0) as [-> | H0].
  - rewrite Reqb_refl, Rltb_true by lra. f_equal. ring.
  - rewrite (Reqb_false x 0) by assumption.
    unfold is_int. rewrite Int_part_2, Reqb_refl. f_equal.
    change (powerRZ x 2) with (x * (x * 1)). ring.
Qed.





Lemma fold_plus_repeat (c : R) (n : nat) (a : R) :
  fold_left Rplus (repeat c n) a = a + INR n * c.
Proof.
  revert a. induction n as [| n IH]; intros a.
  - cbn. ring.
  - cbn [repeat fold_left]. rewrite IH, S_INR. ring.
Qed.

Lemma np_sum_repeat (c : R) (n : nat) :
  np_sum (repeat (Fin c) n) = Fin (0 + INR n * c).
Proof.
  unfold np_sum. rewrite <- (map_repeat c n Fin), fold_add_fin.
  now rewrite fold_plus_repeat.
Qed.

(** Without rounding, the total sum of squares of [n > 0] equal volumes
    is zero.  So it is in floats when the mean of the volumes is the
    volume itself, as for twenty times 5.0. *)
Lemma ss_tot_constant (c : R) (n : nat) :
  (0 < n)%nat ->
  let q := repeat (Fin c) n in
  exists z : R, ss_tot q = Fin z /\ z = 0.
Proof.
  intros Hn q. unfold ss_tot, q, np_mean. cbn [snd].
  rewrite repeat_length, np_sum_repeat.
  assert (Hn0 : INR n <> 0) by (apply not_0_INR; lia).
  rewrite f_div_fin by assumption.
  rewrite !map_repeat. cbn [f_sub f_neg f_add]. rewrite f_pow_square.
  rewrite np_sum_repeat. eexists. split; [reflexivity |].
  field_simplify; [| assumption]. lra.
Qed.

Lemma Rleb_true (x y : R) : x <= y -> Rleb x y = true.
Proof. intros H. unfold Rleb. destruct (Rle_dec x y); [reflexivity | lra]. Qed.

Lemma Rleb_le (x y : R) : Rleb x y = true -> x <= y.
Proof. unfold Rleb. destruct (Rle_dec x y); [easy | discriminate]. Qed.

Lemma f_div_fin_zero (x : R) : x = 0 -> f_div (Fin x) (Fin 0) = NaN.
Proof. intros ->. cbn. rewrite Reqb_refl. now apply inf_of_sign_zero. Qed.

Lemma rate_np_flat (t qi b : R) :
  b <> 0 -> rate_np (Fin t) (Fin qi) (Fin 0) (Fin b) = Fin qi.
Proof.
  intros Hb. unfold rate_np. cbn [f_mul f_add].
  rewrite f_div_fin by assumption.
  replace (1 + b * 0 * t) with 1 by ring.
  rewrite f_pow_one, f_div_fin by lra. f_equal. field.
Qed.

Lemma map2_repeat {A B C : Type} (f : A -> B -> C) (a : A) (b : B) (n : nat) :
  map2 f (repeat a n) (repeat b n) = repeat (f a b) n.
Proof. induction n as [| n IH]; cbn; [reflexivity | now f_equal]. Qed.

Lemma fit_times_flat (recent : list Monthly.row) (qi b : R) :
  b <> 0 ->
  map (fun x => rate_np x (Fin qi) (Fin 0) (Fin b)) (fit_times recent)
  = repeat (Fin qi) (length recent).
Proof.
  intros Hb. unfold fit_times. rewrite map_map.
  induction recent as [| m l IH]; cbn [map repeat length]; [reflexivity |].
  rewrite rate_np_flat by assumption. now f_equal.
Qed.

(** *** The sample run *)

Lemma sample_window :
  fit_volumes (recent_data (aggregate sample_days)) = repeat (Fin (0 + 5)) 20.
Proof. vm_compute. reflexivity. Qed.

Lemma sample_window_length :
  length (recent_data (aggregate sample_days)) = 20%nat.
Proof.
  rewrite <- (length_map Monthly.oil_volume).
  change (map Monthly.oil_volume (recent_data (aggregate sample_days)))
    with (fit_volumes (recent_data (aggregate sample_days))).
  now rewrite sample_window.
Qed.

Lemma answer_honours_bounds (x1 x2 x3 : f64) :
  honours_bounds (answer x1 x2 x3).
Proof.
  intros f t q p0 lo1 lo2 lo3 hi1 hi2 hi3 maxfev y1 y2 y3. unfold answer.
  destruct (f_leb lo1 x1) eqn:E1; [| discriminate].
  destruct (f_leb x1 hi1) eqn:E2; [| discriminate].
  destruct (f_leb lo2 x2) eqn:E3; [| discriminate].
  destruct (f_leb x2 hi2) eqn:E4; [| discriminate].
  destruct (f_leb lo3 x3) eqn:E5; [| discriminate].
  destruct (f_leb x3 hi3) eqn:E6; [| discriminate].
  cbn. intros [= <- <- <-]. auto 6.
Qed.

Lemma sample_fit_answers :
  fit sample_fit (recent_data (aggregate sample_days))
  = Ok (Fin 5, Fin 0, Fin 1).
Proof.
  unfold fit. rewrite sample_window. cbn [repeat iloc0 bind].
  unfold sample_fit, answer. cbn [f_leb].
  now rewrite !Rleb_true by lra.
Qed.

Lemma sample_r_squared :
  goodness_of_fit (fit_times (recent_data (aggregate sample_days)))
                  (fit_volumes (recent_data (aggregate sample_days)))
                  (Np, Fin 5) (Np, Fin 0) (Np, Fin 1)
  = Ok (Np, NaN).
Proof.
  rewrite goodness_of_fit_np by apply fit_times_length.
  rewrite fit_times_flat by lra.
  rewrite sample_window_length, sample_window.
  destruct (ss_tot_constant (0 + 5) 20) as [z [Hz ->]]; [lia |].
  unfold ss_tot in Hz. rewrite Hz.
  rewrite map2_repeat, map_repeat. cbn [f_sub f_neg f_add].
  rewrite f_pow_square, np_sum_repeat.
  rewrite f_div_fin_zero by ring. reflexivity.
Qed.

Lemma Ok_np_inj (a b : f64) :
  Ok (Np, a) = Ok (Np, b) :> result scalar -> a = b.
Proof. now intros [= ->]. Qed.


Lemma Forall_map_eq_repeat {A B : Type} (f : A -> B) (b : B) (l : list A) :
  Forall (fun x => f x = b) l -> map f l = repeat b (length l).
Proof.
  induction 1 as [| x l Hx _ IH]; cbn; [reflexivity | now f_equal].
Qed.

Lemma sample_run :
  exists tables : Tables,
    analyze_production sample_fit sample_days = Ok tables /\
    r_squared (decline_parameters tables) = NaN.
Proof.
  destruct (analyze_production_fitted sample_fit sample_days _ _ _
              sample_fit_answers) as [r2 [fut [rows [Hr2 [_ [_ Hrun]]]]]].
  rewrite sample_r_squared in Hr2. apply Ok_np_inj in Hr2. subst r2.
  eexists. split; [exact Hrun | reflexivity].
Qed.





(** *** Cumulative production *)

Lemma Rsum_map_fin (vs : list R) : map volume (map Fin vs) = vs.
Proof. rewrite map_map. apply map_id. Qed.

Lemma Forall_fin_not_infinite (vs : list R) :
  Forall not_infinite (map Fin vs).
Proof. apply Forall_map, Forall_forall. now intros x _. Qed.

Lemma sample_days_numbers :
  Forall not_infinite (map Daily.oil_volume sample_days).
Proof.
  apply Forall_map, Forall_forall. intros o Ho.
  unfold sample_days, one_per_month in Ho. apply in_map_iff in Ho.
  destruct Ho as [i [<- _]]. exact I.
Qed.

Lemma sample_days_total :
  Rsum (map volume (map Daily.oil_volume sample_days)) = 450.
Proof.
  cbv [sample_days one_per_month map seq volume Daily.oil_volume Rsum].
  lra.
Qed.

(** C6.  In every run that succeeds, [eur] is the cumulative production
    plus the future reserves (the sum of the two numbers when they are
    numbers), [remaining_reserves] is the future reserves, and the
    cumulative production is the sum of the oil volumes of the whole
    monthly series, the one the run saves, not of the fitting window: the
    number obtained by adding these volumes, which is also the total of
    the oil volumes of all the observations. *)
Theorem eur_accounting :
  forall (curve_fit :
            (value -> value -> value -> value -> result value) ->
            list f64 -> list f64 -> list f64 -> list f64 * list f64 -> Z ->
            result (f64 * f64 * f64))
         (df : list Daily.row) (tables : Tables),
    analyze_production curve_fit df = Ok tables ->
    let p := decline_parameters tables in
    exists fut : f64,
      future_reserves (Np, qi p) (Np, di p) (Np, b_factor p) = Ok (Np, fut) /\
      eur p = f_add (cumulative_production p) fut /\
      remaining_reserves p = fut /\
      monthly_production tables = aggregate df /\
      cumulative_production p
      = pd_sum (map Monthly.oil_volume (monthly_production tables)) /\
      (forall c f : R,
          cumulative_production p = Fin c -> fut = Fin f ->
          eur p = Fin (c + f)) /\
      (forall vs : list R,
          map Monthly.oil_volume (monthly_production tables) = map Fin vs ->
          cumulative_production p = Fin (Rsum vs)) /\
      (Forall not_infinite (map Daily.oil_volume df) ->
       cumulative_production p
       = Fin (Rsum (map volume
                        (map Monthly.oil_volume (monthly_production tables))))
       /\
       cumulative_production p
       = Fin (Rsum (map volume (map Daily.oil_volume df)))).
Proof.
  intros cf df tables Hrun p.
  pose proof (analyze_production_inv cf df tables Hrun) as Hfit.
  destruct (analyze_production_fitted cf df _ _ _ Hfit)
    as [r2 [fut [rows [_ [Hfut [_ Hrun']]]]]].
  rewrite Hrun in Hrun'. injection Hrun' as Ht.
  exists fut. split; [exact Hfut |]. unfold p. rewrite Ht.
  cbn [decline_parameters monthly_production eur cumulative_production
         remaining_reserves].
  do 4 (split; [reflexivity |]).
  split; [| split].
  - intros c f -> ->. reflexivity.
  - intros vs ->. rewrite pd_sum_volume by apply Forall_fin_not_infinite.
    now rewrite Rsum_map_fin.
  - intros Hall. destruct (monthly_oil_total df Hall) as [Hm Htot].
    rewrite pd_sum_volume by assumption. split; [reflexivity |].
    now rewrite Htot.
Qed.

Lemma eur_accounting_witness :
  exists (tables : Tables) (fut : f64),
    let p := decline_parameters tables in
    analyze_production sample_fit sample_days = Ok tables /\
    future_reserves (Np, qi p) (Np, di p) (Np, b_factor p) = Ok (Np, fut) /\
    eur p = f_add (cumulative_production p) fut /\
    remaining_reserves p = fut /\
    monthly_production tables = aggregate sample_days /\
    cumulative_production p
    = pd_sum (map Monthly.oil_volume (monthly_production tables)) /\
    cumulative_production p = Fin 450 /\
    length (monthly_production tables) = 90%nat /\
    length (recent_data (monthly_production tables)) = 20%nat.
Proof.
  destruct sample_run as [tables [Hrun _]].
  destruct (eur_accounting sample_fit sample_days tables Hrun)
    as [fut [H1 [H2 [H3 [H4 [H5 [_ [_ H8]]]]]]]].
  exists tables, fut. cbv zeta.
  split; [exact Hrun |]. split; [exact H1 |]. split; [exact H2 |].
  split; [exact H3 |]. split; [exact H4 |]. split; [exact H5 |].
  split; [| split].
  - destruct (H8 sample_days_numbers) as [_ H]. rewrite H.
    now rewrite sample_days_total.
  - rewrite H4, aggregate_length.
    unfold sample_days. rewrite one_per_month_keys by lia.
    now rewrite length_map, length_seq.
  - rewrite H4. exact sample_window_length.
Defined.

(** C10.  The optimizer is called with the bounds [0, 0, 0] and
    [inf, 1, 2].  With an optimizer that honours the bounds it is given,
    every run that succeeds has [qi >= 0], [0 <= Di <= 1] and
    [0 <= b <= 2], and the reserves and the forecast it saves were
    computed from these same parameters. *)
Theorem fitted_parameters_in_bounds :
  forall (curve_fit :
            (value -> value -> value -> value -> result value) ->
            list f64 -> list f64 -> list f64 -> list f64 * list f64 -> Z ->
            result (f64 * f64 * f64)),
    honours_bounds curve_fit ->
    forall (df : list Daily.row) (tables : Tables),
      analyze_production curve_fit df = Ok tables ->
      let p := decline_parameters tables in
      (f_leb (Fin 0) (qi p) = true /\ f_leb (qi p) PInf = true) /\
      (f_leb (Fin 0) (di p) = true /\ f_leb (di p) (Fin 1) = true) /\
      (f_leb (Fin 0) (b_factor p) = true /\
       f_leb (b_factor p) (Fin 2) = true) /\
      future_reserves (Np, qi p) (Np, di p) (Np, b_factor p)
      = Ok (Np, remaining_reserves p) /\
      forecast 20 120 (aggregate df) (Np, qi p) (Np, di p) (Np, b_factor p)
      = Ok (production_forecast tables).
Proof.
  intros cf Hcf df tables Hrun p.
  pose proof (analyze_production_inv cf df tables Hrun) as Hfit.
  destruct (analyze_production_fitted cf df _ _ _ Hfit)
    as [r2 [fut [rows [_ [Hfut [Hrows Hrun']]]]]].
  rewrite Hrun in Hrun'. injection Hrun' as Ht.
  unfold fit in Hfit.
  destruct (iloc0 (fit_volumes (recent_data (aggregate df))))
    as [qi_guess | e |]; [| discriminate ..].
  cbn [bind] in Hfit. apply Hcf in Hfit.
  fold p in Hfit, Hfut, Hrows.
  destruct Hfit as [H1 [H2 [H3 [H4 [H5 H6]]]]].
  repeat split; try assumption.
  - rewrite Hfut. unfold p. rewrite Ht. reflexivity.
  - rewrite Hrows. unfold p. rewrite Ht. reflexivity.
Qed.

Lemma fitted_parameters_in_bounds_witness :
  exists tables : Tables,
    let p := decline_parameters tables in
    analyze_production sample_fit sample_days = Ok tables /\
    (f_leb (Fin 0) (qi p) = true /\ f_leb (qi p) PInf = true) /\
    (f_leb (Fin 0) (di p) = true /\ f_leb (di p) (Fin 1) = true) /\
    (f_leb (Fin 0) (b_factor p) = true /\
     f_leb (b_factor p) (Fin 2) = true) /\
    future_reserves (Np, qi p) (Np, di p) (Np, b_factor p)
    = Ok (Np, remaining_reserves p) /\
    forecast 20 120 (aggregate sample_days) (Np, qi p) (Np, di p)
             (Np, b_factor p)
    = Ok (production_forecast tables).
Proof.
  destruct sample_run as [tables [Hrun _]].
  exists tables. split; [exact Hrun |].
  apply (fitted_parameters_in_bounds sample_fit
           (answer_honours_bounds (Fin 5) (Fin 0) (Fin 1))
           sample_days tables Hrun).
Defined.
